(** * rollingwriter: a shallow embedding of writer.go

    The file models the four writer variants of the package (plain,
    locked, asynchronous, buffered), the rotation protocol [Reopen], the
    retention queue and the compression task, over a small model of the
    operating-system calls the code makes ([os.Rename], [os.OpenFile],
    [Write] of os.File, ...).  Every system call can fail: either for a
    reason visible in the model (a missing file, a closed or read-only
    descriptor) or because the environment injects a fault. *)

From Stdlib Require Import ZArith List String Lia Bool.
From stdpp Require Import base option list gmap strings.

Local Open Scope string_scope.
Local Open Scope Z_scope.
Local Open Scope list_scope.

Abbreviation bytes := (list Byte.byte).

(** ** Errors *)

(** [ErrClosed] and [ErrInvalidArgument] are the package's own error
    values (declared next to the configuration, outside writer.go); the
    others are the conditions of package [os] that the code can meet. *)
Inductive error : Type :=
| ErrClosed
| ErrInvalidArgument
| os_ErrInvalid      (* method called on a nil os.File pointer *)
| os_ErrClosed       (* "file already closed" *)
| ENOENT             (* no such file or directory *)
| EBADF              (* descriptor not open for the operation *)
| EIO.               (* any failure decided by the environment *)

Global Instance error_eq_dec : EqDecision error.
Proof. solve_decision. Defined.

(** ** Operating-system model *)

Record openflag := {
  fl_write : bool;     (* O_WRONLY or O_RDWR *)
  fl_create : bool;    (* O_CREATE *)
  fl_append : bool     (* O_APPEND *)
}.

Global Instance openflag_eq_dec : EqDecision openflag.
Proof. solve_decision. Defined.

(** [os.Open] opens with O_RDONLY. *)
Definition O_RDONLY : openflag :=
  {| fl_write := false; fl_create := false; fl_append := false |}.

(** Modelled from the spec: [DefaultFileFlag] is a constant declared outside
    writer.go; section 4.1 step 3 says the new file is opened "with
    creation/append semantics", and the writers write through it. *)
Definition DefaultFileFlag : openflag :=
  {| fl_write := true; fl_create := true; fl_append := true |}.

(** An open file description: the value behind a non-nil os.File pointer. *)
Record File := {
  f_ino : nat;
  f_flag : openflag;
  f_off : nat;
  f_closed : bool
}.

Inductive syscall := SysRename | SysOpen | SysClose | SysWrite | SysRemove | SysSeek | SysRead.

(** Faults injected by the environment: one list per kind of call, read
    from the head, [true] meaning "this call fails"; an exhausted list
    injects nothing. *)
Record Faults := {
  rename_f : list bool;
  open_f : list bool;
  close_f : list bool;
  write_f : list bool;
  remove_f : list bool;
  seek_f : list bool;
  read_f : list bool
}.

Definition no_faults : Faults :=
  {| rename_f := []; open_f := []; close_f := []; write_f := [];
     remove_f := []; seek_f := []; read_f := [] |}.

Definition hd_fault (l : list bool) : bool :=
  match l with b :: _ => b | [] => false end.

Definition pop (k : syscall) (f : Faults) : bool * Faults :=
  match k with
  | SysRename => (hd_fault (rename_f f),
      {| rename_f := tail (rename_f f); open_f := open_f f; close_f := close_f f;
         write_f := write_f f; remove_f := remove_f f; seek_f := seek_f f; read_f := read_f f |})
  | SysOpen => (hd_fault (open_f f),
      {| rename_f := rename_f f; open_f := tail (open_f f); close_f := close_f f;
         write_f := write_f f; remove_f := remove_f f; seek_f := seek_f f; read_f := read_f f |})
  | SysClose => (hd_fault (close_f f),
      {| rename_f := rename_f f; open_f := open_f f; close_f := tail (close_f f);
         write_f := write_f f; remove_f := remove_f f; seek_f := seek_f f; read_f := read_f f |})
  | SysWrite => (hd_fault (write_f f),
      {| rename_f := rename_f f; open_f := open_f f; close_f := close_f f;
         write_f := tail (write_f f); remove_f := remove_f f; seek_f := seek_f f; read_f := read_f f |})
  | SysRemove => (hd_fault (remove_f f),
      {| rename_f := rename_f f; open_f := open_f f; close_f := close_f f;
         write_f := write_f f; remove_f := tail (remove_f f); seek_f := seek_f f; read_f := read_f f |})
  | SysSeek => (hd_fault (seek_f f),
      {| rename_f := rename_f f; open_f := open_f f; close_f := close_f f;
         write_f := write_f f; remove_f := remove_f f; seek_f := tail (seek_f f); read_f := read_f f |})
  | SysRead => (hd_fault (read_f f),
      {| rename_f := rename_f f; open_f := open_f f; close_f := close_f f;
         write_f := write_f f; remove_f := remove_f f; seek_f := seek_f f; read_f := tail (read_f f) |})
  end.

(** What the program does to the outside world, in order. *)
Inductive event :=
| EvRename (old new : string) (r : option error)
| EvOpen (path : string) (fl : openflag) (r : option error)
| EvClose (fd : nat) (r : option error)
| EvWrite (fd : nat) (data : bytes) (r : option error)
| EvRemove (path : string) (r : option error)
| EvSleep (ms : Z)
| EvLog (msg : string) (e : error).

Record World := {
  dir : gmap string nat;     (* directory: path -> inode *)
  inodes : list bytes;       (* inode number -> content *)
  fds : list File;           (* every os.File ever returned, by number *)
  faults : Faults;
  trace : list event
}.

Definition set_dir (d : gmap string nat) (s : World) : World :=
  {| dir := d; inodes := inodes s; fds := fds s; faults := faults s; trace := trace s |}.
Definition set_inodes (i : list bytes) (s : World) : World :=
  {| dir := dir s; inodes := i; fds := fds s; faults := faults s; trace := trace s |}.
Definition set_fds (f : list File) (s : World) : World :=
  {| dir := dir s; inodes := inodes s; fds := f; faults := faults s; trace := trace s |}.
Definition set_faults (f : Faults) (s : World) : World :=
  {| dir := dir s; inodes := inodes s; fds := fds s; faults := f; trace := trace s |}.
Definition set_trace (t : list event) (s : World) : World :=
  {| dir := dir s; inodes := inodes s; fds := fds s; faults := faults s; trace := t |}.

(** The content of the file at [path], if there is one. *)
Definition content (s : World) (path : string) : option bytes :=
  match dir s !! path with
  | Some i => inodes s !! i
  | None => None
  end.

(** ** The state monad of the embedding *)

Definition M (A : Type) : Type := World -> A * World.

Definition ret {A} (a : A) : M A := fun s => (a, s).
Definition bind {A B} (m : M A) (k : A -> M B) : M B :=
  fun s => let (a, s') := m s in k a s'.

Notation "'do' x <- m ; k" := (bind m (fun x => k))
  (at level 10, x name, m at level 100, k at level 200, only parsing).
Notation "'run' m ; k" := (bind m (fun _ => k))
  (at level 10, m at level 100, k at level 200, only parsing).

Definition get : M World := fun s => (s, s).
Definition modify (f : World -> World) : M unit := fun s => (tt, f s).

Definition fault (k : syscall) : M bool :=
  fun s => let (b, f) := pop k (faults s) in (b, set_faults f s).

Definition emit (e : event) : M unit :=
  modify (fun s => set_trace (trace s ++ [e]) s).

Definition is_err (e : option error) : bool :=
  match e with Some _ => true | None => false end.

(** *** Package os *)

(** [os.Rename(old, new)]: replaces [new] if it exists. *)
Definition os_Rename (old new : string) : M (option error) :=
  do bad <- fault SysRename;
  do s <- get;
  let r := if bad then Some EIO
           else match dir s !! old with
                | Some _ => None
                | None => Some ENOENT
                end in
  run (match r, dir s !! old with
       | None, Some i => modify (set_dir (<[new := i]> (delete old (dir s))))
       | _, _ => ret tt
       end);
  run emit (EvRename old new r);
  ret r.

(** [os.OpenFile(path, flag, perm)]; the permission bits play no role in
    the model.  The result is the pair Go returns: a nil file with an
    error, or a file with a nil error. *)
Definition os_OpenFile (path : string) (fl : openflag) : M (option nat * option error) :=
  do bad <- fault SysOpen;
  do s <- get;
  if bad then run emit (EvOpen path fl (Some EIO)); ret (None, Some EIO)
  else match dir s !! path with
       | Some i =>
           let h := List.length (fds s) in
           let off := 0%nat in
           run modify (set_fds (fds s ++ [{| f_ino := i; f_flag := fl; f_off := off; f_closed := false |}]));
           run emit (EvOpen path fl None);
           ret (Some h, None)
       | None =>
           if fl_create fl then
             let i := List.length (inodes s) in
             let h := List.length (fds s) in
             run modify (fun s => set_dir (<[path := i]> (dir s))
                                (set_inodes (inodes s ++ [[]])
                                   (set_fds (fds s ++ [{| f_ino := i; f_flag := fl; f_off := 0%nat; f_closed := false |}]) s)));
             run emit (EvOpen path fl None);
             ret (Some h, None)
           else run emit (EvOpen path fl (Some ENOENT)); ret (None, Some ENOENT)
       end.

Definition os_Open (path : string) : M (option nat * option error) :=
  os_OpenFile path O_RDONLY.

(** [os.Remove(path)]. *)
Definition os_Remove (path : string) : M (option error) :=
  do bad <- fault SysRemove;
  do s <- get;
  let r := if bad then Some EIO
           else match dir s !! path with
                | Some _ => None
                | None => Some ENOENT
                end in
  run (if is_err r then ret tt else modify (set_dir (delete path (dir s))));
  run emit (EvRemove path r);
  ret r.

Definition close_fd (f : File) : File :=
  {| f_ino := f_ino f; f_flag := f_flag f; f_off := f_off f; f_closed := true |}.

(** [Close] of os.File: a nil receiver gives [os.ErrInvalid]; a file that
    was closed before gives [os.ErrClosed] and the descriptor is not
    touched; otherwise the descriptor is released, whatever the call
    returns. *)
Definition File_Close (f : option nat) : M (option error) :=
  match f with
  | None => ret (Some os_ErrInvalid)
  | Some h =>
      do s <- get;
      match fds s !! h with
      | None => ret (Some os_ErrInvalid)
      | Some d =>
          if f_closed d then ret (Some os_ErrClosed)
          else
            do bad <- fault SysClose;
            let r := if bad then Some EIO else None in
            run modify (fun s => set_fds (<[h := close_fd d]> (fds s)) s);
            run emit (EvClose h r);
            ret r
      end
  end.

(** Writing [b] at offset [off] of [old]. *)
Definition write_at (old : bytes) (off : nat) (b : bytes) : bytes :=
  take off old ++ b ++ drop (off + List.length b) old.

Definition set_off (n : nat) (f : File) : File :=
  {| f_ino := f_ino f; f_flag := f_flag f; f_off := n; f_closed := f_closed f |}.

(** [Write] of os.File: returns the number of bytes written and the error.
    A failed write leaves the file as it was. *)
Definition File_Write (f : option nat) (b : bytes) : M (Z * option error) :=
  match f with
  | None => ret (0, Some os_ErrInvalid)
  | Some h =>
      do s <- get;
      match fds s !! h with
      | None => ret (0, Some os_ErrInvalid)
      | Some d =>
          if f_closed d then ret (0, Some os_ErrClosed)
          else
            do bad <- fault SysWrite;
            if negb (fl_write (f_flag d)) then
              run emit (EvWrite h b (Some EBADF)); ret (0, Some EBADF)
            else if bad then
              run emit (EvWrite h b (Some EIO)); ret (0, Some EIO)
            else
              let old := default [] (inodes s !! f_ino d) in
              let off := if fl_append (f_flag d) then List.length old else f_off d in
              run modify (fun s => set_inodes (<[f_ino d := write_at old off b]> (inodes s))
                                 (set_fds (<[h := set_off (off + List.length b) d]> (fds s)) s));
              run emit (EvWrite h b None);
              ret (Z.of_nat (List.length b), None)
      end
  end.

(** [time.Sleep], with the duration in milliseconds. *)
Definition time_Sleep (ms : Z) : M unit := emit (EvSleep ms).

(** [log.Println] and the builtin [print]: the message goes to the log. *)
Definition log_Println (msg : string) (e : error) : M unit := emit (EvLog msg e).


(** [Seek(0, 0)] of os.File: back to the start of the file. *)
Definition File_Seek0 (f : option nat) : M (option error) :=
  match f with
  | None => ret (Some os_ErrInvalid)
  | Some h =>
      do s <- get;
      match fds s !! h with
      | None => ret (Some os_ErrInvalid)
      | Some d =>
          if f_closed d then ret (Some os_ErrClosed)
          else
            do bad <- fault SysSeek;
            if bad then ret (Some EIO)
            else
              run modify (fun s => set_fds (<[h := set_off 0 d]> (fds s)) s);
              ret None
      end
  end.

(** Reading a file from its offset to its end, as [io.Copy] does with its
    source. *)
Definition File_ReadAll (f : option nat) : M (bytes * option error) :=
  match f with
  | None => ret ([], Some os_ErrInvalid)
  | Some h =>
      do s <- get;
      match fds s !! h with
      | None => ret ([], Some os_ErrInvalid)
      | Some d =>
          if f_closed d then ret ([], Some os_ErrClosed)
          else
            do bad <- fault SysRead;
            if bad then ret ([], Some EIO)
            else
              let old := default [] (inodes s !! f_ino d) in
              run modify (fun s => set_fds (<[h := set_off (List.length old) d]> (fds s)) s);
              ret (drop (f_off d) old, None)
      end
  end.

(** ** Channels *)

(** A buffered channel; a nil channel is [None] at its uses. *)
Record chan (A : Type) := { ch_cap : nat; ch_buf : list A }.
Arguments ch_cap {A} _.
Arguments ch_buf {A} _.

Definition make_chan {A} (cap : nat) : chan A := {| ch_cap := cap; ch_buf := [] |}.

(** A send in a [select] with a [default]: [None] when the send is not
    ready (the buffer is full, or the channel is nil). *)
Definition try_send {A} (c : option (chan A)) (x : A) : option (chan A) :=
  match c with
  | None => None
  | Some ch =>
      if (List.length (ch_buf ch) <? ch_cap ch)%nat
      then Some {| ch_cap := ch_cap ch; ch_buf := ch_buf ch ++ [x] |}
      else None
  end.

(** A receive: [None] when nothing can be received now. *)
Definition try_recv {A} (c : option (chan A)) : option (A * chan A) :=
  match c with
  | None => None
  | Some ch =>
      match ch_buf ch with
      | x :: rest => Some (x, {| ch_cap := ch_cap ch; ch_buf := rest |})
      | [] => None
      end
  end.

Definition chan_len {A} (c : option (chan A)) : nat :=
  match c with Some ch => List.length (ch_buf ch) | None => 0%nat end.

Definition chan_items {A} (c : option (chan A)) : list A :=
  match c with Some ch => ch_buf ch | None => [] end.

(** How a piece of code that may wait on a channel ends. *)
Inductive outcome (A : Type) :=
| Done (a : A)
| Blocked          (* waits on a channel or a lock nobody releases *)
| Panic            (* a run-time panic *)
| OutOfFuel.       (* the model ran out of loop iterations *)
Arguments Done {A} _.
Arguments Blocked {A}.
Arguments Panic {A}.
Arguments OutOfFuel {A}.

(** ** The base writer *)

(** The fields of [Config] that writer.go reads after construction. *)
Record Config := {
  Compress : bool;
  MaxRemain : Z;
  BufferWriterThershould : Z
}.

(** [fire] holds the file names the manager has ready on its channel;
    [tasks] records the detached goroutines that [Reopen] has started and
    that have not run yet (the file name each one was started with). *)
Record Writer := {
  file : option nat;
  absPath : string;
  fire : list string;
  cf : Config;
  rollingfilech : option (chan string);
  tasks : list string
}.

Definition set_file (f : option nat) (w : Writer) : Writer :=
  {| file := f; absPath := absPath w; fire := fire w; cf := cf w;
     rollingfilech := rollingfilech w; tasks := tasks w |}.
Definition set_fire (l : list string) (w : Writer) : Writer :=
  {| file := file w; absPath := absPath w; fire := l; cf := cf w;
     rollingfilech := rollingfilech w; tasks := tasks w |}.
Definition set_rollingfilech (c : option (chan string)) (w : Writer) : Writer :=
  {| file := file w; absPath := absPath w; fire := fire w; cf := cf w;
     rollingfilech := c; tasks := tasks w |}.
Definition set_tasks (t : list string) (w : Writer) : Writer :=
  {| file := file w; absPath := absPath w; fire := fire w; cf := cf w;
     rollingfilech := rollingfilech w; tasks := t |}.

(** The channel [NewWriterFromConfig] makes for a configuration. *)
Definition new_rollingfilech (c : Config) : option (chan string) :=
  if 0 <? MaxRemain c then Some (make_chan (Z.to_nat (MaxRemain c))) else None.

(** [DoRemove]: receives the oldest name of the queue and removes that
    file; a failed removal is logged.  The receive has no [default]. *)
Definition DoRemove (w : Writer) : M (outcome Writer) :=
  match try_recv (rollingfilech w) with
  | None => ret Blocked
  | Some (f, ch) =>
      do err <- os_Remove f;
      run (match err with
           | Some e => log_Println "error in remove log file" e
           | None => ret tt
           end);
      ret (Done (set_rollingfilech (Some ch) w))
  end.

(** The second half of [Reopen], from the [os.OpenFile] of the new file. *)
Definition Reopen_newfile (w : Writer) (name : string) : M (option error * Writer) :=
  do r <- os_OpenFile (absPath w) DefaultFileFlag;
  match snd r with
  | Some e =>
      run log_Println "err happend: " e;
      ret (None, w)
  | None =>
      let w := set_file (fst r) w in
      ret (None, set_tasks (tasks w ++ [name]) w)
  end.

(** [Reopen]: the rotation.  The result is the error it returns and the
    writer after it. *)
Definition Reopen (w : Writer) (name : string) : M (option error * Writer) :=
  let rname := if Compress (cf w) then String.append name ".tmp" else name in
  run File_Close (file w);
  do e1 <- os_Rename (absPath w) rname;
  if is_err e1 then
    do e2 <- os_Rename (absPath w) rname;
    if is_err e2 then
      run time_Sleep 10;
      do e3 <- os_Rename (absPath w) rname;
      if is_err e3 then
        do r <- os_Open (absPath w);
        ret (None, set_file (fst r) w)
      else Reopen_newfile w name
    else Reopen_newfile w name
  else Reopen_newfile w name.

(** [Write] of the plain writer: a non-blocking look at [fire], the
    rotation when a name is there, then the write. *)
Definition Writer_Write (w : Writer) (b : bytes) : M (Z * option error * Writer) :=
  match fire w with
  | filename :: rest =>
      do r <- Reopen (set_fire rest w) filename;
      match fst r with
      | Some err => ret (0, Some err, snd r)
      | None =>
          do n <- File_Write (file (snd r)) b;
          ret (fst n, snd n, snd r)
      end
  | [] =>
      do n <- File_Write (file w) b;
      ret (fst n, snd n, w)
  end.

(** [Close] of the plain writer. *)
Definition Writer_Close (w : Writer) : M (option error) :=
  File_Close (file w).


(** [Write] and [Close] of the locked writer.  [mu] is the mutex: a call
    that finds it held waits. *)
Record LockedWriter := { lw : Writer; mu : bool }.

Definition LockedWriter_Write (w : LockedWriter) (b : bytes)
  : M (outcome (Z * option error * LockedWriter)) :=
  if mu w then ret Blocked
  else
    match fire (lw w) with
    | filename :: rest =>
        do r <- Reopen (set_fire rest (lw w)) filename;
        match fst r with
        | Some err => ret (Done (0, Some err, {| lw := snd r; mu := false |}))
        | None =>
            do n <- File_Write (file (snd r)) b;
            ret (Done (fst n, snd n, {| lw := snd r; mu := false |}))
        end
    | [] =>
        do n <- File_Write (file (lw w)) b;
        ret (Done (fst n, snd n, {| lw := lw w; mu := false |}))
    end.

Definition LockedWriter_Close (w : LockedWriter) : M (outcome (option error)) :=
  if mu w then ret Blocked
  else do e <- File_Close (file (lw w)); ret (Done e).

(** ** Compression and retention: the goroutine of [Reopen] *)

(** A [gzip.Writer] on a file: it takes the plain bytes in and has put the
    whole compressed stream on the file once it is closed. *)
Record gzipWriter := { gz_dst : option nat; gz_in : bytes }.

Definition gzip_NewWriter (f : option nat) : gzipWriter :=
  {| gz_dst := f; gz_in := [] |}.

Section Package.

(** The compressed stream package compress/gzip produces for an input. *)
Variable gzip : bytes -> bytes.

Definition gzip_Close (gw : gzipWriter) : M (option error) :=
  do r <- File_Write (gz_dst gw) (gzip (gz_in gw));
  ret (snd r).

(** [io.Copy(gw, of)]: everything left in the source file goes into [gw]. *)
Definition io_Copy (gw : gzipWriter) (of_ : option nat) : M (option error * gzipWriter) :=
  do r <- File_ReadAll of_;
  match snd r with
  | Some e => ret (Some e, gw)
  | None => ret (None, {| gz_dst := gz_dst gw; gz_in := gz_in gw ++ fst r |})
  end.

(** The body of [CompressFile] after both deferred calls are registered;
    the result carries the gzip writer the deferred [gw.Close()] will see. *)
Definition CompressFile_body (cmpfile : option nat) (cmpname : string)
  : M (option error * gzipWriter) :=
  let gw := gzip_NewWriter cmpfile in
  do of_ <- os_Open (String.append cmpname ".tmp");
  match snd of_ with
  | Some err => ret (Some err, gw)
  | None =>
      do e <- File_Seek0 (fst of_);
      match e with
      | Some err => ret (Some err, gw)
      | None =>
          do c <- io_Copy gw (fst of_);
          match fst c with
          | Some err =>
              run File_Close cmpfile;
              do errR <- os_Remove cmpname;
              match errR with
              | Some eR => ret (Some eR, snd c)
              | None => ret (Some err, snd c)
              end
          | None =>
              run File_Close (fst of_);
              do r <- os_Remove (String.append cmpname ".tmp");
              ret (r, snd c)
          end
      end
  end.

(** [CompressFile]: the deferred calls run last, [gw.Close()] before
    [cmpfile.Close()], and their results are dropped. *)
Definition CompressFile (w : Writer) (cmpname : string) : M (option error) :=
  do c <- os_OpenFile cmpname DefaultFileFlag;
  match snd c with
  | Some err =>
      run File_Close (fst c);
      ret (Some err)
  | None =>
      do r <- CompressFile_body (fst c) cmpname;
      run gzip_Close (snd r);
      run File_Close (fst c);
      ret (fst r)
  end.

(** The [retry] loop of the goroutine: a non-blocking send of the name,
    and [DoRemove] when the send is not ready. *)
Fixpoint retry (fuel : nat) (w : Writer) (name : string) : M (outcome Writer) :=
  match fuel with
  | O => ret OutOfFuel
  | S fuel' =>
      match try_send (rollingfilech w) name with
      | Some ch => ret (Done (set_rollingfilech (Some ch) w))
      | None =>
          do r <- DoRemove w;
          match r with
          | Done w' => retry fuel' w' name
          | Blocked => ret Blocked
          | Panic => ret Panic
          | OutOfFuel => ret OutOfFuel
          end
      end
  end.

(** The goroutine [Reopen] starts once the new file is open. *)
Definition Reopen_go (fuel : nat) (w : Writer) (name : string) : M (outcome Writer) :=
  do ok <- (if Compress (cf w) then
              do err <- CompressFile w name;
              match err with
              | Some e => run log_Println "error in compress log file" e; ret false
              | None => ret true
              end
            else ret true);
  if ok then
    if 0 <? MaxRemain (cf w) then retry fuel w name else ret (Done w)
  else ret (Done w).

(** Running the oldest goroutine that has not run yet, to its end. *)
Definition run_task (fuel : nat) (w : Writer) : M (outcome Writer) :=
  match tasks w with
  | [] => ret (Done w)
  | name :: rest => Reopen_go fuel (set_tasks rest w) name
  end.

(** A rotation whose goroutine finishes before anything else happens. *)
Definition rotation (fuel : nat) (w : Writer) (name : string) : M (outcome Writer) :=
  do r <- Reopen w name;
  run_task fuel (snd r).

(** Rotations one after the other, in the order of the names. *)
Fixpoint rotations (fuel : nat) (w : Writer) (names : list string) : M (outcome Writer) :=
  match names with
  | [] => ret (Done w)
  | name :: rest =>
      do r <- rotation fuel w name;
      match r with
      | Done w' => rotations fuel w' rest
      | Blocked => ret Blocked
      | Panic => ret Panic
      | OutOfFuel => ret OutOfFuel
      end
  end.

(** Rotations and the goroutines they start, in any order: [Reopen]
    starts its goroutine with [go] and nothing orders the goroutines
    after that.  A step is a call of [Reopen], or the goroutine at place
    [k] among those started and not yet run, running to its end. *)
Inductive sched_step :=
| DoReopen (name : string)
| DoTask (k : nat).

Definition run_task_at (fuel : nat) (w : Writer) (k : nat) : M (outcome Writer) :=
  match tasks w !! k with
  | None => ret (Done w)
  | Some name => Reopen_go fuel (set_tasks (delete k (tasks w)) w) name
  end.

Fixpoint run_steps (fuel : nat) (w : Writer) (l : list sched_step) : M (outcome Writer) :=
  match l with
  | [] => ret (Done w)
  | DoReopen name :: rest =>
      do r <- Reopen w name;
      run_steps fuel (snd r) rest
  | DoTask k :: rest =>
      do r <- run_task_at fuel w k;
      match r with
      | Done w' => run_steps fuel w' rest
      | Blocked => ret Blocked
      | Panic => ret Panic
      | OutOfFuel => ret OutOfFuel
      end
  end.

(** ** The buffered writer *)

(** Go's [int] is 64 bits wide here. *)
Definition wrap64 (z : Z) : Z := (z + 2 ^ 63) mod 2 ^ 64 - 2 ^ 63.

(** A byte slice: its elements and its capacity. *)
Record slice := { sl_data : bytes; sl_cap : Z }.

Definition len (s : slice) : Z := Z.of_nat (List.length (sl_data s)).

(** [make([]byte, 0, c)] panics on a negative capacity. *)
Definition make_slice (c : Z) : option slice :=
  if c <? 0 then None else Some {| sl_data := []; sl_cap := c |}.

(** The capacity the runtime gives a slice that has to grow, from the old
    capacity and the length needed. *)
Variable growslice : Z -> Z -> Z.

(** The builtin [append(s, b...)]. *)
Definition append (s : slice) (b : bytes) : slice :=
  let n := Z.of_nat (List.length (sl_data s ++ b)) in
  {| sl_data := sl_data s ++ b;
     sl_cap := if n <=? sl_cap s then sl_cap s else growslice (sl_cap s) n |}.

(** [buf] is the slice [w.buf] points to; [swaping] is the flush flag. *)
Record BufferWriter := { bw : Writer; buf : slice; swaping : Z }.

(** The flush of [BufferWriter.Write], entered after the flag is taken. *)
Definition BufferWriter_flush (w : BufferWriter) (n : Z)
  : M (outcome (Z * option error * BufferWriter)) :=
  match make_slice (wrap64 (BufferWriterThershould (cf (bw w)) * 2)) with
  | None => ret Panic
  | Some nb =>
      let ob := buf w in
      run File_Write (file (bw w)) (sl_data ob);
      ret (Done (n, None, {| bw := bw w; buf := nb; swaping := 0 |}))
  end.

Definition BufferWriter_Write (w : BufferWriter) (b : bytes)
  : M (outcome (Z * option error * BufferWriter)) :=
  do r <- (match fire (bw w) with
           | filename :: rest => Reopen (set_fire rest (bw w)) filename
           | [] => ret (None, bw w)
           end);
  match fst r with
  | Some err => ret (Done (0, Some err, {| bw := snd r; buf := buf w; swaping := swaping w |}))
  | None =>
      let w1 := {| bw := snd r; buf := append (buf w) b; swaping := swaping w |} in
      if (BufferWriterThershould (cf (bw w1)) <? len (buf w1)) && (swaping w1 =? 0) then
        BufferWriter_flush {| bw := bw w1; buf := buf w1; swaping := 1 |}
                           (Z.of_nat (List.length b))
      else ret (Done (Z.of_nat (List.length b), None, w1))
  end.

(** [Close] of the buffered writer: the result of the write is dropped. *)
Definition BufferWriter_Close (w : BufferWriter) : M (option error) :=
  run File_Write (file (bw w)) (sl_data (buf w));
  File_Close (file (bw w)).

(** *** Several goroutines in [BufferWriter.Write]

    The statements of [Write] after the look at [fire], taken one at a
    time, so that the calls of several goroutines on one writer can be
    interleaved.  Each goroutine is at one of these places. *)
Inductive bw_pc :=
| BwIdle                             (* not in a call *)
| BwLoaded (b : bytes) (old : slice) (* has read [*w.buf]; the store of the append is next *)
| BwStored (b : bytes)               (* has stored; the test and the compare-and-swap are next *)
| BwFlag (b : bytes)                 (* has set the flag; the swap of the buffers is next *)
| BwSwapped (b : bytes) (ob : slice) (* has swapped; the write of the old buffer is next *)
| BwWritten (b : bytes)              (* has written; the store of 0 in the flag is next *)
| BwPanicked.                        (* [make] has panicked *)

Record BwShared := { sh_w : BufferWriter; sh_pcs : list bw_pc }.

Definition set_pc (i : nat) (pc : bw_pc) (st : BwShared) : BwShared :=
  {| sh_w := sh_w st; sh_pcs := <[i := pc]> (sh_pcs st) |}.

Definition set_shared (w : BufferWriter) (st : BwShared) : BwShared :=
  {| sh_w := w; sh_pcs := sh_pcs st |}.

(** The next statement of goroutine [i]; [b] is the argument of the call
    it makes if it is not in one. *)
Definition bw_step (i : nat) (b : bytes) (st : BwShared) : M BwShared :=
  let w := sh_w st in
  match sh_pcs st !! i with
  | None => ret st
  | Some BwIdle => ret (set_pc i (BwLoaded b (buf w)) st)
  | Some (BwLoaded b0 old) =>
      ret (set_pc i (BwStored b0)
             (set_shared {| bw := bw w; buf := append old b0; swaping := swaping w |} st))
  | Some (BwStored b0) =>
      if (BufferWriterThershould (cf (bw w)) <? len (buf w)) && (swaping w =? 0) then
        ret (set_pc i (BwFlag b0)
               (set_shared {| bw := bw w; buf := buf w; swaping := 1 |} st))
      else ret (set_pc i BwIdle st)
  | Some (BwFlag b0) =>
      match make_slice (wrap64 (BufferWriterThershould (cf (bw w)) * 2)) with
      | None => ret (set_pc i BwPanicked st)
      | Some nb =>
          ret (set_pc i (BwSwapped b0 (buf w))
                 (set_shared {| bw := bw w; buf := nb; swaping := swaping w |} st))
      end
  | Some (BwSwapped b0 ob) =>
      run File_Write (file (bw w)) (sl_data ob);
      ret (set_pc i (BwWritten b0) st)
  | Some (BwWritten b0) =>
      ret (set_pc i BwIdle
             (set_shared {| bw := bw w; buf := buf w; swaping := 0 |} st))
  | Some BwPanicked => ret st
  end.

(** A schedule: which goroutine moves next, and with which argument. *)
Fixpoint bw_run (sched : list (nat * bytes)) (st : BwShared) : M BwShared :=
  match sched with
  | [] => ret st
  | (i, b) :: rest => do st' <- bw_step i b st; bw_run rest st'
  end.

(** Whether a goroutine is between the compare-and-swap it won and its
    store of 0 in the flag. *)
Definition holds_flag (pc : bw_pc) : bool :=
  match pc with
  | BwFlag _ | BwSwapped _ _ | BwWritten _ | BwPanicked => true
  | _ => false
  end.

Definition holders (st : BwShared) : nat :=
  List.length (List.filter holds_flag (sh_pcs st)).

(** ** The asynchronous writer *)

(** The size of the slices the buffer pool makes, a constant declared
    outside writer.go. *)
Variable BufferSize : nat.

(** Where the goroutine [writer] stands. *)
Inductive drain_pc :=
| AtSelect                              (* at the [select] of its loop *)
| AtSend (err : error) (b : bytes)      (* at [w.errChan <- err], chunk [b] in hand *)
| AtPut (b : bytes)                     (* the send is over, [Put(b)] comes next *)
| Returned.

(** [queue] is the channel of chunks; [ctx] tells whether the channel
    [ctx] is closed; [pool] is [_asyncBufferPool], as the lengths of the
    slices put back into it; [drain] is the goroutine [writer];
    [readers] counts the goroutines outside that wait to receive from
    [errChan], [received] is what they have received. *)
Record AsynchronousWriter := {
  aw : Writer;
  ctx : bool;
  queue : chan bytes;
  closed : Z;
  pool : list nat;
  drain : drain_pc;
  readers : nat;
  received : list error
}.

Definition set_aw (x : Writer) (w : AsynchronousWriter) : AsynchronousWriter :=
  {| aw := x; ctx := ctx w; queue := queue w; closed := closed w; pool := pool w;
     drain := drain w; readers := readers w; received := received w |}.
Definition set_ctx (x : bool) (w : AsynchronousWriter) : AsynchronousWriter :=
  {| aw := aw w; ctx := x; queue := queue w; closed := closed w; pool := pool w;
     drain := drain w; readers := readers w; received := received w |}.
Definition set_queue (x : chan bytes) (w : AsynchronousWriter) : AsynchronousWriter :=
  {| aw := aw w; ctx := ctx w; queue := x; closed := closed w; pool := pool w;
     drain := drain w; readers := readers w; received := received w |}.
Definition set_closed (x : Z) (w : AsynchronousWriter) : AsynchronousWriter :=
  {| aw := aw w; ctx := ctx w; queue := queue w; closed := x; pool := pool w;
     drain := drain w; readers := readers w; received := received w |}.
Definition set_pool (x : list nat) (w : AsynchronousWriter) : AsynchronousWriter :=
  {| aw := aw w; ctx := ctx w; queue := queue w; closed := closed w; pool := x;
     drain := drain w; readers := readers w; received := received w |}.
Definition set_drain (x : drain_pc) (w : AsynchronousWriter) : AsynchronousWriter :=
  {| aw := aw w; ctx := ctx w; queue := queue w; closed := closed w; pool := pool w;
     drain := x; readers := readers w; received := received w |}.

(** [_asyncBufferPool.Put(b)]. *)
Definition pool_Put (b : bytes) (w : AsynchronousWriter) : AsynchronousWriter :=
  set_pool (List.length b :: pool w) w.

(** [_asyncBufferPool.Get()]: the length of the slice obtained, a pooled
    one if there is one and a new one of [BufferSize] bytes otherwise. *)
Definition pool_Get (w : AsynchronousWriter) : nat * AsynchronousWriter :=
  match pool w with
  | n :: rest => (n, set_pool rest w)
  | [] => (BufferSize, w)
  end.

(** The send on [errChan], which has no buffer: it goes through when a
    goroutine is waiting to receive. *)
Definition errChan_send (err : error) (w : AsynchronousWriter) : option AsynchronousWriter :=
  match readers w with
  | O => None
  | S n =>
      Some {| aw := aw w; ctx := ctx w; queue := queue w; closed := closed w; pool := pool w;
              drain := drain w; readers := n; received := received w ++ [err] |}
  end.

(** One step of the goroutine [writer].  [pick_ctx] settles the [select]
    when both of its cases are ready.  [Blocked] means that it cannot
    move in this state. *)
Definition writer_step (pick_ctx : bool) (w : AsynchronousWriter)
  : M (outcome AsynchronousWriter) :=
  match drain w with
  | AtSelect =>
      match ch_buf (queue w) with
      | b :: rest =>
          if ctx w && pick_ctx then ret (Done (set_drain Returned w))
          else
            let w := set_queue {| ch_cap := ch_cap (queue w); ch_buf := rest |} w in
            do r <- File_Write (file (aw w)) b;
            match snd r with
            | Some err => ret (Done (set_drain (AtSend err b) w))
            | None => ret (Done (set_drain (AtPut b) w))
            end
      | [] => if ctx w then ret (Done (set_drain Returned w)) else ret Blocked
      end
  | AtSend err b =>
      match errChan_send err w with
      | Some w' => ret (Done (set_drain (AtPut b) w'))
      | None => ret Blocked
      end
  | AtPut b => ret (Done (set_drain AtSelect (pool_Put b w)))
  | Returned => ret (Done w)
  end.

(** The goroutine left alone for [n] steps; it stops where it cannot move. *)
Fixpoint writer_run (n : nat) (w : AsynchronousWriter) : M AsynchronousWriter :=
  match n with
  | O => ret w
  | S n' =>
      do r <- writer_step false w;
      match r with
      | Done w' => writer_run n' w'
      | _ => ret w
      end
  end.

(** The loop of [Write] that cuts [b] into pooled slices. *)
Fixpoint chunks (fuel : nat) (b : bytes) (w : AsynchronousWriter)
  : outcome AsynchronousWriter :=
  match b with
  | [] => Done w
  | _ :: _ =>
      match fuel with
      | O => OutOfFuel
      | S fuel' =>
          let (l, w1) := pool_Get w in
          let n := Nat.min l (List.length b) in
          match try_send (Some (queue w1)) (take n b) with
          | None => Blocked
          | Some q => chunks fuel' (drop n b) (set_queue q w1)
          end
      end
  end.

(** [Write] of the asynchronous writer.  [pick_err] settles the [select]
    when an error and a file name are both there to receive. *)
Definition AsynchronousWriter_Write (fuel : nat) (pick_err : bool)
    (w : AsynchronousWriter) (b : bytes)
  : M (outcome (Z * option error * AsynchronousWriter)) :=
  if closed w =? 0 then
    let rotate (filename : string) (rest : list string) :=
      do r <- Reopen (set_fire rest (aw w)) filename;
      match fst r with
      | Some err => ret (Done (0, Some err, set_aw (snd r) w))
      | None =>
          match chunks fuel b (set_aw (snd r) w) with
          | Done w' => ret (Done (Z.of_nat (List.length b), None, w'))
          | Blocked => ret Blocked
          | Panic => ret Panic
          | OutOfFuel => ret OutOfFuel
          end
      end in
    match drain w, fire (aw w) with
    | AtSend err c, filename :: rest =>
        if pick_err then ret (Done (0, Some err, set_drain (AtPut c) w))
        else rotate filename rest
    | AtSend err c, [] => ret (Done (0, Some err, set_drain (AtPut c) w))
    | _, filename :: rest => rotate filename rest
    | _, [] =>
        let (_, w1) := pool_Get w in
        match try_send (Some (queue w1)) b with
        | None => ret Blocked
        | Some q => ret (Done (Z.of_nat (List.length b), None, set_queue q w1))
        end
    end
  else ret (Done (0, Some ErrClosed, w)).

(** [onClose], by recursion on what the queue holds. *)
Fixpoint onClose (q : list bytes) (w : AsynchronousWriter) : M AsynchronousWriter :=
  match q with
  | [] => ret w
  | b :: rest =>
      let w := set_queue {| ch_cap := ch_cap (queue w); ch_buf := rest |} w in
      do r <- File_Write (file (aw w)) b;
      match snd r with
      | Some err =>
          match errChan_send err w with
          | Some w' => onClose rest (pool_Put b w')
          | None => ret (pool_Put b w)
          end
      | None => onClose rest (pool_Put b w)
      end
  end.

(** [Close] of the asynchronous writer. *)
Definition AsynchronousWriter_Close (w : AsynchronousWriter)
  : M (option error * AsynchronousWriter) :=
  if closed w =? 0 then
    let w := set_ctx true (set_closed 1 w) in
    do w' <- onClose (ch_buf (queue w)) w;
    do e <- File_Close (file (aw w'));
    ret (e, w')
  else ret (Some ErrClosed, w).

End Package.
(** ** A small world for the examples *)

Definition w0 : World :=
  {| dir := {[ "app.log" := 0%nat ]}; inodes := [[]];
     fds := [{| f_ino := 0; f_flag := DefaultFileFlag; f_off := 0; f_closed := false |}];
     faults := no_faults; trace := [] |}.

Definition cfg0 : Config :=
  {| Compress := false; MaxRemain := 2; BufferWriterThershould := 4 |}.

Definition wr0 : Writer :=
  {| file := Some 0%nat; absPath := "app.log"; fire := []; cf := cfg0;
     rollingfilech := new_rollingfilech cfg0; tasks := [] |}.

(** The same writer keeping one rotated file. *)
Definition cfg_one : Config :=
  {| Compress := false; MaxRemain := 1; BufferWriterThershould := 4 |}.

Definition wr_one : Writer :=
  {| file := Some 0%nat; absPath := "app.log"; fire := []; cf := cfg_one;
     rollingfilech := new_rollingfilech cfg_one; tasks := [] |}.

Definition rename_fails (n : nat) : Faults :=
  {| rename_f := repeat true n; open_f := []; close_f := []; write_f := [];
     remove_f := []; seek_f := []; read_f := [] |}.

(** A stand-in for the compressed stream in the examples: the two magic
    bytes of gzip, then the input. *)
Definition toy_gzip (b : bytes) : bytes := Byte.x1f :: Byte.x8b :: b.



(** A world where the log file holds two bytes. *)
Definition w1 : World :=
  {| dir := {[ "app.log" := 0%nat ]}; inodes := [[Byte.x61; Byte.x62]];
     fds := [{| f_ino := 0; f_flag := DefaultFileFlag; f_off := 0; f_closed := false |}];
     faults := no_faults; trace := [] |}.




Definition aw0 : AsynchronousWriter :=
  {| aw := wr0; ctx := false; queue := make_chan 4; closed := 0; pool := [];
     drain := AtSelect; readers := 0; received := [] |}.

Definition bw0 : BufferWriter :=
  {| bw := wr0; buf := {| sl_data := []; sl_cap := 8 |}; swaping := 0 |}.

(** The buffered writer with two bytes in its buffer. *)
Definition bw_ab : BufferWriter :=
  {| bw := wr0; buf := {| sl_data := [Byte.x61; Byte.x62]; sl_cap := 8 |}; swaping := 0 |}.

Definition write_fails : Faults :=
  {| rename_f := []; open_f := []; close_f := []; write_f := [true];
     remove_f := []; seek_f := []; read_f := [] |}.

(** A stand-in for the growth of slices in the examples. *)
Definition toy_growslice (old needed : Z) : Z := Z.max needed (2 * old).

(** The asynchronous writer with one chunk waiting in its queue. *)
Definition aq : AsynchronousWriter :=
  set_queue {| ch_cap := 4; ch_buf := [[Byte.x41]] |} aw0.

(** * Calls in sequence *)

(** [Write] of the plain writer called once for each element of [bs], in
    order; the results come back in the same order. *)
Fixpoint Writer_Writes (w : Writer) (bs : list bytes)
  : M (list (Z * option error) * Writer) :=
  match bs with
  | [] => ret ([], w)
  | b :: rest =>
      do r <- Writer_Write w b;
      do rs <- Writer_Writes (snd r) rest;
      ret (fst r :: fst rs, snd rs)
  end.

(** The file behind descriptor [h] is inode [i], holds [c], and is open
    for appending. *)
Definition appendable (s : World) (h i : nat) (c : bytes) : Prop :=
  exists d, fds s !! h = Some d /\ f_closed d = false /\
            f_flag d = DefaultFileFlag /\ f_ino d = i /\ inodes s !! i = Some c.

(** The first [n] calls of [os.OpenFile] fail. *)
Definition open_fails (n : nat) : Faults :=
  {| rename_f := []; open_f := repeat true n; close_f := []; write_f := [];
     remove_f := []; seek_f := []; read_f := [] |}.

(** [Write] of the buffered writer called once for each element of [bs],
    in order. *)
Fixpoint BufferWriter_Writes (growslice : Z -> Z -> Z) (w : BufferWriter) (bs : list bytes)
  : M (outcome BufferWriter) :=
  match bs with
  | [] => ret (Done w)
  | b :: rest =>
      do r <- BufferWriter_Write growslice w b;
      match r with
      | Done x => BufferWriter_Writes growslice (snd x) rest
      | Blocked => ret Blocked
      | Panic => ret Panic
      | OutOfFuel => ret OutOfFuel
      end
  end.


(** The drain goroutine is not waiting to hand over an error. *)
Definition no_error_pending (a : AsynchronousWriter) : Prop :=
  forall e c, drain a <> AtSend e c.

(** The asynchronous writer with two chunks waiting in its queue. *)
Definition aq2 : AsynchronousWriter :=
  set_queue {| ch_cap := 4; ch_buf := [[Byte.x41]; [Byte.x42]] |} aw0.

(** A writer whose retention queue is full, and a world that holds the
    two queued files. *)
Definition wfull : Writer :=
  set_rollingfilech (Some {| ch_cap := 2; ch_buf := ["a.log"; "b.log"] |}) wr0.

Definition wkept : World :=
  {| dir := {[ "app.log" := 0%nat; "a.log" := 1%nat; "b.log" := 2%nat ]};
     inodes := [[]; [Byte.x61]; [Byte.x62]];
     fds := [{| f_ino := 0; f_flag := DefaultFileFlag; f_off := 0; f_closed := false |}];
     faults := no_faults; trace := [] |}.

Definition remove_fails : Faults :=
  {| rename_f := []; open_f := []; close_f := []; write_f := [];
     remove_f := [true]; seek_f := []; read_f := [] |}.

(** * Construction *)

(** The fields of the configuration that only [NewWriterFromConfig]
    reads, next to the ones in [Config]. *)
Record Options := {
  LogPath : string;
  FileName : string;
  WriterMode : string;
  RollingPolicy : Z;
  conf : Config
}.

(** The value behind the interface [RollingWriter]. *)
Inductive RollingWriter :=
| Plain (w : Writer)
| Locked (w : LockedWriter)
| Asynchronous (w : AsynchronousWriter)
| Buffered (w : BufferWriter).

(** The base writer inside each of them. *)
Definition base_writer (rw : RollingWriter) : Writer :=
  match rw with
  | Plain w => w
  | Locked w => lw w
  | Asynchronous w => aw w
  | Buffered w => bw w
  end.

Section Construction.

(** Declared outside writer.go: the path of the log file for a
    configuration; the manager, as success or failure of [NewManager]
    with the names ready on the channel [Fire()] returns; the size of the
    queue and the constant for the time policy; the name the manager
    generates for a rotated file.  [os.MkdirAll] works on directories,
    which the model of the file system does not have. *)
Variable LogFilePath : Options -> string.
Variable NewManager : Options -> list string * option error.
Variable os_MkdirAll : string -> M (option error).
Variable QueueSize : nat.
Variable TimeRolling : Z.
Variable GenLogFileName : Options -> string.

(** [NewWriterFromConfig], up to the goroutine it starts last; [pool0] is
    the buffer pool of the package at that moment. *)
Definition NewWriterFromConfig (c : Options) (pool0 : list nat)
  : M (outcome (option RollingWriter * option error)) :=
  if (LogPath c =? "")%string || (FileName c =? "")%string then
    ret (Done (None, Some ErrInvalidArgument))
  else
    do e <- os_MkdirAll (LogPath c);
    match e with
    | Some err => ret (Done (None, Some err))
    | None =>
        let filepath := LogFilePath c in
        do f <- os_OpenFile filepath DefaultFileFlag;
        match snd f with
        | Some err => ret (Done (None, Some err))
        | None =>
            match snd (NewManager c) with
            | Some err => ret (Done (None, Some err))
            | None =>
                let writer :=
                  {| file := fst f; absPath := filepath; fire := fst (NewManager c);
                     cf := conf c; rollingfilech := None; tasks := [] |} in
                let writer :=
                  if 0 <? MaxRemain (conf c)
                  then set_rollingfilech
                         (Some (make_chan (Z.to_nat (MaxRemain (conf c))))) writer
                  else writer in
                if (WriterMode c =? "none")%string then
                  ret (Done (Some (Plain writer), None))
                else if (WriterMode c =? "lock")%string then
                  ret (Done (Some (Locked {| lw := writer; mu := false |}), None))
                else if (WriterMode c =? "async")%string then
                  ret (Done (Some (Asynchronous
                         {| aw := writer; ctx := false; queue := make_chan QueueSize;
                            closed := 0; pool := pool0; drain := AtSelect;
                            readers := 0; received := [] |}), None))
                else if (WriterMode c =? "buffer")%string then
                  match make_slice (wrap64 (BufferWriterThershould (conf c) * 2)) with
                  | None => ret Panic
                  | Some bf =>
                      ret (Done (Some (Buffered {| bw := writer; buf := bf; swaping := 0 |}),
                                 None))
                  end
                else ret (Done (None, Some ErrInvalidArgument))
            end
        end
    end.

(** The goroutine [NewWriterFromConfig] starts last: the name it sends on
    the channel of the manager, if it sends one.  [mtime] is the date the
    log file was last modified and [now] the date of the day, as year,
    month and day; [os.Stat] finds a file when the path is in the
    directory. *)
Definition startup_signal (c : Options) (mtime now : Z * Z * Z) (s : World) : option string :=
  if RollingPolicy c =? TimeRolling then
    let '(y, m, d) := mtime in
    let '(ny, nm, nd) := now in
    if (d <? nd) || (m <? nm) || (y <? ny) then
      match dir s !! GenLogFileName c with
      | None => Some (GenLogFileName c)
      | Some _ => None
      end
    else None
  else None.

End Construction.

(** One calendar date before another. *)
Definition date_lt (a b : Z * Z * Z) : Prop :=
  let '(y, m, d) := a in
  let '(ny, nm, nd) := b in
  y < ny \/ (y = ny /\ (m < nm \/ (m = nm /\ d < nd))).

(** The writer modes [NewWriterFromConfig] knows. *)
Definition known_mode (m : string) : Prop :=
  m = "none" \/ m = "lock" \/ m = "async" \/ m = "buffer".

(** Stand-ins for the parts of the package outside this file, for the
    examples: the log file is the file name with the suffix of a log in
    the directory, the manager starts with no signal pending, and the
    directory is there already. *)
Definition toy_LogFilePath (c : Options) : string :=
  (LogPath c ++ "/" ++ FileName c ++ ".log")%string.

Definition toy_NewManager (c : Options) : list string * option error := ([], None).

Definition toy_MkdirAll (path : string) : M (option error) := ret None.

Definition opts0 (mode : string) : Options :=
  {| LogPath := "log"; FileName := "app"; WriterMode := mode; RollingPolicy := 1;
     conf := cfg0 |}.

(** * Vocabulary of the properties *)

(** [t] is what a computation adds to the trace. *)
Definition adds {A} (m : M A) (s : World) (t : list event) : Prop :=
  trace (snd (m s)) = trace s ++ t.

Definition is_rename_or_sleep (e : event) : bool :=
  match e with
  | EvRename _ _ _ | EvSleep _ => true
  | _ => false
  end.

(** The renames and sleeps of a trace, in order. *)
Definition schedule (t : list event) : list event := List.filter is_rename_or_sleep t.

Definition is_rename (e : event) : bool :=
  match e with EvRename _ _ _ => true | _ => false end.

(** How many times [os.Rename] was called. *)
Definition renames (t : list event) : nat := List.length (List.filter is_rename t).

(** The name the old file is moved to. *)
Definition rname (w : Writer) (name : string) : string :=
  if Compress (cf w) then String.append name ".tmp" else name.

Definition new_file (i : nat) (fl : openflag) : File :=
  {| f_ino := i; f_flag := fl; f_off := 0; f_closed := false |}.

(** Closes a goal that runs one system call with no fault to inject. *)
Ltac run_call s F :=
  unfold bind, get, fault; simpl;
  repeat match goal with
         | H : _ = _ |- _ => rewrite H; simpl
         end;
  destruct s as [? ? ? [] ?]; simpl in *; subst; simpl; try reflexivity.

(** Projections of the world through its updates. *)
Ltac proj :=
  cbn [dir inodes fds faults trace set_dir set_inodes set_fds set_faults set_trace
       fst snd f_ino f_flag f_off f_closed new_file set_off close_fd].
Ltac step := unfold ret; proj.
Ltac nf F := proj; rewrite F; reflexivity.
Ltac fd_len := rewrite ?length_insert, ?length_app; simpl; lia.

Definition tmp_of (name : string) : string := String.append name ".tmp".

(** The queue after a name is handed to it: the oldest name leaves when
    there is no room. *)
Definition push (cap : nat) (q : list string) (name : string) : list string :=
  if (List.length q <? cap)%nat then q ++ [name] else tail q ++ [name].

(** The name that leaves, if one does. *)
Definition evicted (cap : nat) (q : list string) : list string :=
  if (List.length q <? cap)%nat then [] else take 1 q.

Definition with_queue (cap : nat) (q : list string) (w : Writer) : Writer :=
  set_rollingfilech (Some {| ch_cap := cap; ch_buf := q |}) w.

(** What the removal done by [DoRemove] leaves: the world after
    [os.Remove], with the failure logged if there is one. *)
Definition after_remove (path : string) (s : World) : World :=
  let (r, s1) := os_Remove path s in
  match r with
  | Some e => snd (log_Println "error in remove log file" e s1)
  | None => s1
  end.

(** The queue of the writer has capacity [cap] and holds no more. *)
Definition queue_ok (cap : nat) (w : Writer) : Prop :=
  exists q, rollingfilech w = Some {| ch_cap := cap; ch_buf := q |} /\
            (List.length q <= cap)%nat.

(** The directory after the goroutine of a rotation to [name]. *)
Definition compressed_dir (c : bool) (name : string) (j : nat)
    (d : gmap string nat) : gmap string nat :=
  if c then delete (tmp_of name) (<[name := j]> d) else d.

Definition evicted_dir (l : list string) (d : gmap string nat) : gmap string nat :=
  match l with
  | x :: _ => delete x d
  | [] => d
  end.

(** The names that leave the queue while [names] are handed to it. *)
Fixpoint evictions (cap : nat) (names : list string) (q : list string) : list string :=
  match names with
  | [] => []
  | x :: rest => evicted cap q ++ evictions cap rest (push cap q x)
  end.

(** The paths a series of rotations writes, besides the active one. *)
Definition used (w : Writer) (names : list string) : list string :=
  if Compress (cf w) then names ++ map tmp_of names else names.

(** The second of two [Close] calls reports the closed condition. *)
Definition already_closed (e : option error) : Prop :=
  e = Some ErrClosed \/ e = Some os_ErrClosed.

Definition flag_count (pc : bw_pc) : nat := if holds_flag pc then 1 else 0.

(** The flag is 1 exactly while one goroutine is in the flush, and no
    second goroutine is ever in it. *)
Definition bw_inv (st : BwShared) : Prop :=
  (swaping (sh_w st) = 0 /\ holders st = 0%nat)
  \/ (swaping (sh_w st) = 1 /\ holders st = 1%nat).

(** The buffer a flush leaves behind: empty, with twice the threshold as
    capacity. *)
Definition fresh_buffer (w : BufferWriter) : slice :=
  {| sl_data := []; sl_cap := wrap64 (BufferWriterThershould (cf (bw w)) * 2) |}.

(** * Properties *)

(** ** The trace only grows *)

Lemma os_Rename_adds old new s :
  adds (os_Rename old new) s [EvRename old new (fst (os_Rename old new s))].
Proof.
  unfold adds, os_Rename, bind, get, emit, modify, ret, fault.
  destruct (pop SysRename (faults s)) as [bad f]. simpl.
  destruct bad; simpl; [reflexivity|].
  destruct (dir s !! old); reflexivity.
Qed.

Lemma File_Close_adds f s :
  exists t, adds (File_Close f) s t /\
            (t = [] \/ exists h r, f = Some h /\ t = [EvClose h r]).
Proof.
  unfold adds, File_Close, bind, get, emit, modify, ret, fault.
  destruct f as [h|]; simpl; [|exists []; rewrite app_nil_r; auto].
  destruct (fds s !! h) as [d|]; simpl; [|exists []; rewrite app_nil_r; auto].
  destruct (f_closed d); simpl; [exists []; rewrite app_nil_r; auto|].
  destruct (pop SysClose (faults s)) as [bad f']. simpl.
  eexists. split; [reflexivity|]. right. eauto.
Qed.

Lemma os_OpenFile_adds path fl s :
  adds (os_OpenFile path fl) s [EvOpen path fl (snd (fst (os_OpenFile path fl s)))].
Proof.
  unfold adds, os_OpenFile, bind, get, emit, modify, ret, fault.
  destruct (pop SysOpen (faults s)) as [bad f']. simpl.
  destruct bad; simpl; [reflexivity|].
  destruct (dir s !! path); simpl; [reflexivity|].
  destruct (fl_create fl); reflexivity.
Qed.

Lemma os_Remove_adds path s :
  adds (os_Remove path) s [EvRemove path (fst (os_Remove path s))].
Proof.
  unfold adds, os_Remove, bind, get, emit, modify, ret, fault.
  destruct (pop SysRemove (faults s)) as [bad f']. simpl.
  destruct bad; simpl; [reflexivity|].
  destruct (dir s !! path); reflexivity.
Qed.

(** ** Rotation: [Reopen] *)

Lemma schedule_app t1 t2 : schedule (t1 ++ t2) = schedule t1 ++ schedule t2.
Proof. apply List.filter_app. Qed.

Lemma Reopen_newfile_adds w name s :
  exists t, adds (Reopen_newfile w name) s t /\ schedule t = [].
Proof.
  unfold Reopen_newfile, adds, bind.
  pose proof (os_OpenFile_adds (absPath w) DefaultFileFlag s) as H. unfold adds in H.
  destruct (os_OpenFile (absPath w) DefaultFileFlag s) as [[f e] s1]. simpl in *.
  destruct e as [e|]; simpl.
  - unfold log_Println, emit, modify, ret. simpl. rewrite H, <- app_assoc.
    eexists. split; [reflexivity|reflexivity].
  - unfold ret. simpl. rewrite H. eexists. split; [reflexivity|reflexivity].
Qed.

Lemma Reopen_newfile_nil w name s : fst (fst (Reopen_newfile w name s)) = None.
Proof.
  unfold Reopen_newfile, bind.
  destruct (os_OpenFile (absPath w) DefaultFileFlag s) as [[f e] s1]. simpl.
  destruct e; reflexivity.
Qed.

Lemma Reopen_nil w name s : fst (fst (Reopen w name s)) = None.
Proof.
  unfold Reopen, bind.
  destruct (File_Close (file w) s) as [c s0].
  destruct (os_Rename (absPath w) _ s0) as [e1 s1].
  destruct (is_err e1); [|apply Reopen_newfile_nil].
  destruct (os_Rename (absPath w) _ s1) as [e2 s2].
  destruct (is_err e2); [|apply Reopen_newfile_nil].
  unfold time_Sleep at 1. simpl.
  destruct (os_Rename (absPath w) _ _) as [e3 s3].
  destruct (is_err e3); [|apply Reopen_newfile_nil].
  destruct (os_Open (absPath w) s3) as [r s4]. reflexivity.
Qed.

(** C10. [Reopen] returns a nil error whatever the file name and whatever
    the file system does, so in each [Write] the branch that hands an
    error of [Reopen] to the caller is never taken: with a name waiting on
    [fire], each [Write] is equal to the rotation followed by what comes
    after that branch. *)
Theorem Reopen_never_fails_the_caller
    (growslice : Z -> Z -> Z) (BufferSize : nat)
    (w : Writer) (name : string) (rest : list string) (b : bytes) (s : World) :
  fst (fst (Reopen w name s)) = None
  /\ Writer_Write (set_fire (name :: rest) w) b s =
       (let (r, s1) := Reopen (set_fire rest w) name s in
        let (n, s2) := File_Write (file (snd r)) b s1 in
        (fst n, snd n, snd r, s2))
  /\ LockedWriter_Write {| lw := set_fire (name :: rest) w; mu := false |} b s =
       (let (r, s1) := Reopen (set_fire rest w) name s in
        let (n, s2) := File_Write (file (snd r)) b s1 in
        (Done (fst n, snd n, {| lw := snd r; mu := false |}), s2))
  /\ (forall bf sw,
       BufferWriter_Write growslice
         {| bw := set_fire (name :: rest) w; buf := bf; swaping := sw |} b s =
       (let (r, s1) := Reopen (set_fire rest w) name s in
        let w1 := {| bw := snd r; buf := append growslice bf b; swaping := sw |} in
        if (BufferWriterThershould (cf (snd r)) <? len (buf w1)) && (sw =? 0)
        then BufferWriter_flush {| bw := snd r; buf := buf w1; swaping := 1 |}
               (Z.of_nat (List.length b)) s1
        else (Done (Z.of_nat (List.length b), None, w1), s1)))
  /\ (forall fuel (a : AsynchronousWriter),
       AsynchronousWriter_Write BufferSize fuel false
         (set_aw (set_fire (name :: rest) w) (set_closed 0 a)) b s =
       (let (r, s1) := Reopen (set_fire rest w) name s in
        (match chunks BufferSize fuel b
                 (set_aw (snd r) (set_aw (set_fire (name :: rest) w) (set_closed 0 a))) with
         | Done a' => Done (Z.of_nat (List.length b), None, a')
         | Blocked => Blocked
         | Panic => Panic
         | OutOfFuel => OutOfFuel
         end, s1))).
Proof.
  split; [apply Reopen_nil|].
  pose proof (Reopen_nil (set_fire rest w) name s) as Hnil.
  assert (E : set_fire rest (set_fire (name :: rest) w) = set_fire rest w) by reflexivity.
  repeat split.
  - unfold Writer_Write, bind. cbn [fire set_fire]. rewrite E.
    destruct (Reopen (set_fire rest w) name s) as [[e w'] s1]. simpl in *. subst e.
    destruct (File_Write (file w') b s1) as [n s2]. reflexivity.
  - unfold LockedWriter_Write, bind. cbn [fire set_fire lw mu]. rewrite E.
    destruct (Reopen (set_fire rest w) name s) as [[e w'] s1]. simpl in *. subst e.
    destruct (File_Write (file w') b s1) as [n s2]. reflexivity.
  - intros bf sw. unfold BufferWriter_Write, bind. cbn [fire set_fire bw]. rewrite E.
    destruct (Reopen (set_fire rest w) name s) as [[e w'] s1]. simpl in *. subst e.
    destruct (_ && _); reflexivity.
  - intros fuel a. unfold AsynchronousWriter_Write, bind.
    cbn [fire set_fire aw set_aw closed set_closed drain Z.eqb].
    destruct (drain a); cbv zeta beta; rewrite E;
      destruct (Reopen (set_fire rest w) name s) as [[e w'] s1]; simpl in *; subst e;
      destruct (chunks BufferSize fuel b _); reflexivity.
Qed.

(** C3, as amended. [Reopen] calls [os.Rename] at most three times: a
    failed first attempt is followed at once by a second one, a failed
    second attempt by a sleep of 10 milliseconds and a third and last
    attempt. *)
Theorem Reopen_rename_schedule (w : Writer) (name : string) (s : World) :
  exists t,
    trace (snd (Reopen w name s)) = trace s ++ t /\
    (renames t <= 3)%nat /\
    (schedule t = [EvRename (absPath w) (rname w name) None]
     \/ (exists e1,
          schedule t = [EvRename (absPath w) (rname w name) (Some e1);
                        EvRename (absPath w) (rname w name) None])
     \/ (exists e1 e2 r3,
          schedule t = [EvRename (absPath w) (rname w name) (Some e1);
                        EvRename (absPath w) (rname w name) (Some e2);
                        EvSleep 10;
                        EvRename (absPath w) (rname w name) r3])).
Proof.
  unfold Reopen, bind. fold (rname w name).
  destruct (File_Close_adds (file w) s) as (t0 & H0 & Ht0). unfold adds in H0.
  destruct (File_Close (file w) s) as [c s0]. simpl in H0.
  assert (Q0 : schedule t0 = [] /\ renames t0 = 0%nat).
  { destruct Ht0 as [->|(h & r & _ & ->)]; split; reflexivity. }
  destruct Q0 as [Q0 N0].
  pose proof (os_Rename_adds (absPath w) (rname w name) s0) as H1. unfold adds in H1.
  destruct (os_Rename (absPath w) (rname w name) s0) as [e1 s1]. simpl in H1.
  assert (Hnew : forall sx tx, trace sx = trace s ++ tx ->
            exists t, trace (snd (Reopen_newfile w name sx)) = trace s ++ t /\
                      schedule t = schedule tx /\ renames t = renames tx).
  { intros sx tx Hx. destruct (Reopen_newfile_adds w name sx) as (tn & Hn & Qn).
    unfold adds in Hn. exists (tx ++ tn). rewrite Hn, Hx, <- app_assoc.
    split; [reflexivity|]. split.
    - by rewrite schedule_app, Qn, app_nil_r.
    - unfold renames. rewrite List.filter_app, length_app.
      assert (List.filter is_rename tn = []) as ->; [|simpl; lia].
      clear -Qn. unfold schedule in Qn. induction tn as [|e tn IH]; [done|].
      simpl in *. destruct e; simpl in *; try discriminate; auto. }
  destruct e1 as [e1|]; simpl.
  2:{ destruct (Hnew s1 (t0 ++ [EvRename (absPath w) (rname w name) None])) as (t & Ht & Qs & Qr).
      { by rewrite H1, H0, <- app_assoc. }
      exists t. split; [done|]. rewrite Qs, Qr, schedule_app, Q0.
      unfold renames. rewrite List.filter_app, length_app. fold (renames t0). rewrite N0.
      split; [simpl; lia|]. left. reflexivity. }
  pose proof (os_Rename_adds (absPath w) (rname w name) s1) as H2. unfold adds in H2.
  destruct (os_Rename (absPath w) (rname w name) s1) as [e2 s2]. simpl in H2.
  destruct e2 as [e2|]; simpl.
  2:{ destruct (Hnew s2 (t0 ++ [EvRename (absPath w) (rname w name) (Some e1);
                                 EvRename (absPath w) (rname w name) None])) as (t & Ht & Qs & Qr).
      { rewrite H2, H1, H0, <- !app_assoc. reflexivity. }
      exists t. split; [done|]. rewrite Qs, Qr, schedule_app, Q0.
      unfold renames. rewrite List.filter_app, length_app. fold (renames t0). rewrite N0.
      split; [simpl; lia|]. right. left. exists e1. reflexivity. }
  unfold time_Sleep, emit, modify. simpl.
  set (s2' := set_trace (trace s2 ++ [EvSleep 10]) s2).
  pose proof (os_Rename_adds (absPath w) (rname w name) s2') as H3. unfold adds in H3.
  destruct (os_Rename (absPath w) (rname w name) s2') as [e3 s3]. simpl in H3.
  assert (T3 : trace s3 = trace s ++ t0 ++
            [EvRename (absPath w) (rname w name) (Some e1);
             EvRename (absPath w) (rname w name) (Some e2);
             EvSleep 10;
             EvRename (absPath w) (rname w name) e3]).
  { rewrite H3. unfold s2'. simpl. rewrite H2, H1, H0, <- !app_assoc. reflexivity. }
  destruct e3 as [e3|]; simpl.
  - pose proof (os_OpenFile_adds (absPath w) O_RDONLY s3) as H4. unfold adds in H4.
    unfold os_Open.
    destruct (os_OpenFile (absPath w) O_RDONLY s3) as [r s4]. simpl in *.
    eexists. split; [rewrite H4, T3, <- !app_assoc; reflexivity|].
    rewrite !schedule_app, Q0. unfold renames.
    rewrite !List.filter_app, !length_app. fold (renames t0). rewrite N0.
    split; [simpl; lia|]. right. right. exists e1, e2, (Some e3). reflexivity.
  - destruct (Hnew s3 _ T3) as (t & Ht & Qs & Qr).
    exists t. split; [done|]. rewrite Qs, Qr, schedule_app, Q0.
    unfold renames. rewrite List.filter_app, length_app. fold (renames t0). rewrite N0.
    split; [simpl; lia|]. right. right. exists e1, e2, None. reflexivity.
Qed.

(** *** The fallback of [Reopen] when every rename fails *)

Lemma File_Close_rename_f f s :
  rename_f (faults (snd (File_Close f s))) = rename_f (faults s).
Proof.
  unfold File_Close, bind, get, emit, modify, ret, fault.
  destruct f as [h|]; simpl; [|done].
  destruct (fds s !! h) as [d|]; simpl; [|done].
  destruct (f_closed d); simpl; [done|]. reflexivity.
Qed.

Lemma os_Rename_injected old new s l :
  rename_f (faults s) = true :: l ->
  fst (os_Rename old new s) = Some EIO /\
  rename_f (faults (snd (os_Rename old new s))) = l /\
  dir (snd (os_Rename old new s)) = dir s /\
  inodes (snd (os_Rename old new s)) = inodes s /\
  fds (snd (os_Rename old new s)) = fds s.
Proof.
  intros H. unfold os_Rename, bind, get, emit, modify, ret, fault. simpl.
  rewrite H. simpl. auto.
Qed.

(** What [os.OpenFile] returns: a nil file and an error, or the next file
    number, opened with the flag asked for. *)
Lemma os_OpenFile_result path fl s :
  (exists e, fst (os_OpenFile path fl s) = (None, Some e))
  \/ (exists d, fst (os_OpenFile path fl s) = (Some (List.length (fds s)), None) /\
                fds (snd (os_OpenFile path fl s)) = fds s ++ [d] /\
                f_flag d = fl /\ f_closed d = false).
Proof.
  unfold os_OpenFile, bind, get, emit, modify, ret, fault.
  destruct (pop SysOpen (faults s)) as [bad f']. simpl.
  destruct bad; simpl; [left; eauto|].
  destruct (dir s !! path); simpl.
  - right. eexists. split; [reflexivity|]. split; [reflexivity|]. split; reflexivity.
  - destruct (fl_create fl) eqn:C; simpl.
    + right. eexists. split; [reflexivity|]. split; [reflexivity|]. split; reflexivity.
    + left. eauto.
Qed.

(** A write through a nil file, or through a file that is not open for
    writing, writes nothing and fails. *)
Lemma File_Write_refused f b s :
  match f with
  | None => True
  | Some h => exists d, fds s !! h = Some d /\ fl_write (f_flag d) = false
  end ->
  exists e, fst (File_Write f b s) = (0, Some e) /\
            inodes (snd (File_Write f b s)) = inodes s /\
            dir (snd (File_Write f b s)) = dir s.
Proof.
  unfold File_Write, bind, get, emit, modify, ret, fault.
  destruct f as [h|]; [|intros _; exists os_ErrInvalid; auto].
  intros (d & Hd & Hw). simpl. rewrite Hd.
  destruct (f_closed d); simpl; [exists os_ErrClosed; auto|].
  destruct (pop SysWrite (faults s)) as [bad f']. simpl.
  rewrite Hw. simpl. exists EBADF. auto.
Qed.

(** C2, what the code does: when the three renames fail, [Reopen] returns
    nil and leaves in [w.file] what [os.Open] returned, a nil file or a
    file opened read-only; every write through it writes no byte and
    returns an error. *)
Theorem Reopen_fallback_is_read_only (w : Writer) (name : string) (s : World)
    (l : list bool) (b : bytes) :
  rename_f (faults s) = true :: true :: true :: l ->
  let r := Reopen w name s in
  fst (fst r) = None /\
  match file (snd (fst r)) with
  | None => True
  | Some h => exists d, fds (snd r) !! h = Some d /\ f_flag d = O_RDONLY
  end /\
  exists e, fst (File_Write (file (snd (fst r))) b (snd r)) = (0, Some e) /\
            inodes (snd (File_Write (file (snd (fst r))) b (snd r))) = inodes (snd r).
Proof.
  intros H r. split; [apply Reopen_nil|].
  assert (G : match file (snd (fst r)) with
              | None => True
              | Some h => exists d, fds (snd r) !! h = Some d /\ f_flag d = O_RDONLY
              end).
  { subst r. unfold Reopen, bind. fold (rname w name).
    pose proof (File_Close_rename_f (file w) s) as F0. rewrite H in F0.
    destruct (File_Close (file w) s) as [c s0]. simpl in F0.
    destruct (os_Rename_injected (absPath w) (rname w name) s0 _ F0) as (E1 & F1 & _).
    destruct (os_Rename (absPath w) (rname w name) s0) as [e1 s1]. simpl in *. subst e1. simpl.
    destruct (os_Rename_injected (absPath w) (rname w name) s1 _ F1) as (E2 & F2 & _).
    destruct (os_Rename (absPath w) (rname w name) s1) as [e2 s2]. simpl in *. subst e2. simpl.
    unfold time_Sleep, emit, modify. simpl.
    set (s2' := set_trace _ s2).
    assert (F2' : rename_f (faults s2') = true :: l) by exact F2.
    destruct (os_Rename_injected (absPath w) (rname w name) s2' _ F2') as (E3 & _).
    destruct (os_Rename (absPath w) (rname w name) s2') as [e3 s3]. simpl in *. subst e3. simpl.
    unfold os_Open.
    destruct (os_OpenFile_result (absPath w) O_RDONLY s3) as [(e & He)|(d & He & Hf & Hfl & _)];
      destruct (os_OpenFile (absPath w) O_RDONLY s3) as [[f e'] s4]; simpl in *;
      inversion He; subst; simpl; [done|].
    exists d. split; [|done].
    rewrite Hf. rewrite lookup_app_r; [|lia]. by rewrite Nat.sub_diag. }
  split; [exact G|].
  destruct (File_Write_refused (file (snd (fst r))) b (snd r)) as (e & He & Hi & _).
  - destruct (file (snd (fst r))) as [h|]; [|done].
    destruct G as (d & Hd & Hf). exists d. split; [done|]. by rewrite Hf.
  - exists e. auto.
Qed.

Lemma Reopen_fallback_is_read_only_witness :
  rename_f (faults (set_faults (rename_fails 3) w0)) = [true; true; true] /\
  let r := Reopen wr0 "app.1.log" (set_faults (rename_fails 3) w0) in
  fst (fst r) = None /\
  match file (snd (fst r)) with
  | None => True
  | Some h => exists d, fds (snd r) !! h = Some d /\ f_flag d = O_RDONLY
  end /\
  exists e, fst (File_Write (file (snd (fst r))) [Byte.x41] (snd r)) = (0, Some e) /\
            inodes (snd (File_Write (file (snd (fst r))) [Byte.x41] (snd r))) = inodes (snd r).
Proof.
  split; [reflexivity|].
  apply (Reopen_fallback_is_read_only wr0 "app.1.log"
           (set_faults (rename_fails 3) w0) [] [Byte.x41]).
  reflexivity.
Defined.

(** The same run seen from the caller: the write that meets the rotation
    signal while every rename fails comes back with [EBADF] and nothing
    written, and the log file is as it was. *)
Example Write_after_failed_rotation :
  let r := Writer_Write (set_fire ["app.1.log"] wr0) [Byte.x41]
             (set_faults (rename_fails 3) w0) in
  fst r = (0, Some EBADF, set_file (Some 1%nat) wr0) /\
  content (snd r) "app.log" = Some [] /\
  content (snd r) "app.1.log" = None.
Proof. vm_compute. auto. Qed.

(** C3, as stated, fails: with every rename failing (and a fourth fault
    ready for a fourth attempt) [Reopen] stops after three attempts, one
    of them immediate and one after the sleep. *)
Lemma Reopen_makes_no_fourth_rename :
  let s' := snd (Reopen wr0 "app.1.log" (set_faults (rename_fails 4) w0)) in
  renames (trace s') <> 4%nat /\
  schedule (trace s') = [EvRename "app.log" "app.1.log" (Some EIO);
                         EvRename "app.log" "app.1.log" (Some EIO);
                         EvSleep 10;
                         EvRename "app.log" "app.1.log" (Some EIO)] /\
  rename_f (faults s') = [true].
Proof. vm_compute. split; [discriminate|auto]. Qed.

(** ** Running a system call the environment lets through *)

Lemma lookup_snoc {A} (l : list A) (x : A) : (l ++ [x]) !! List.length l = Some x.
Proof. rewrite lookup_app_r; [|lia]. by rewrite Nat.sub_diag. Qed.

Lemma os_Rename_ok old new s i :
  rename_f (faults s) = [] -> dir s !! old = Some i ->
  os_Rename old new s =
    (None, set_trace (trace s ++ [EvRename old new None])
             (set_dir (<[new := i]> (delete old (dir s))) s)).
Proof. intros F D. unfold os_Rename. run_call s F. Qed.

Lemma os_OpenFile_existing path fl s i :
  open_f (faults s) = [] -> dir s !! path = Some i ->
  os_OpenFile path fl s =
    (Some (List.length (fds s)), None,
     set_trace (trace s ++ [EvOpen path fl None])
       (set_fds (fds s ++ [new_file i fl]) s)).
Proof. intros F D. unfold os_OpenFile. run_call s F. Qed.

Lemma os_OpenFile_creates path s :
  open_f (faults s) = [] -> dir s !! path = None ->
  os_OpenFile path DefaultFileFlag s =
    (Some (List.length (fds s)), None,
     set_trace (trace s ++ [EvOpen path DefaultFileFlag None])
       (set_dir (<[path := List.length (inodes s)]> (dir s))
          (set_inodes (inodes s ++ [[]])
             (set_fds (fds s ++ [new_file (List.length (inodes s)) DefaultFileFlag]) s)))).
Proof. intros F D. unfold os_OpenFile. run_call s F. Qed.

Lemma os_Remove_ok path s i :
  remove_f (faults s) = [] -> dir s !! path = Some i ->
  os_Remove path s =
    (None, set_trace (trace s ++ [EvRemove path None]) (set_dir (delete path (dir s)) s)).
Proof. intros F D. unfold os_Remove. run_call s F. Qed.

Lemma File_Close_ok h d s :
  close_f (faults s) = [] -> fds s !! h = Some d -> f_closed d = false ->
  File_Close (Some h) s =
    (None, set_trace (trace s ++ [EvClose h None])
             (set_fds (<[h := close_fd d]> (fds s)) s)).
Proof. intros F D C. unfold File_Close. run_call s F. Qed.

Lemma File_Seek0_ok h d s :
  seek_f (faults s) = [] -> fds s !! h = Some d -> f_closed d = false ->
  File_Seek0 (Some h) s = (None, set_fds (<[h := set_off 0 d]> (fds s)) s).
Proof. intros F D C. unfold File_Seek0. run_call s F. Qed.

Lemma File_ReadAll_ok h d s :
  read_f (faults s) = [] -> fds s !! h = Some d -> f_closed d = false ->
  File_ReadAll (Some h) s =
    (drop (f_off d) (default [] (inodes s !! f_ino d)), None,
     set_fds (<[h := set_off (List.length (default [] (inodes s !! f_ino d))) d]> (fds s)) s).
Proof. intros F D C. unfold File_ReadAll. run_call s F. Qed.


Lemma File_Write_append h d b s :
  write_f (faults s) = [] -> fds s !! h = Some d -> f_closed d = false ->
  f_flag d = DefaultFileFlag ->
  File_Write (Some h) b s =
    (Z.of_nat (List.length b), None,
     set_trace (trace s ++ [EvWrite h b None])
       (set_inodes (<[f_ino d := default [] (inodes s !! f_ino d) ++ b]> (inodes s))
          (set_fds (<[h := set_off (List.length (default [] (inodes s !! f_ino d)) + List.length b) d]>
                      (fds s)) s))).
Proof.
  intros F D C Fl. unfold File_Write. run_call s F.
  unfold write_at. rewrite firstn_all, drop_ge by lia. by rewrite app_nil_r.
Qed.

Lemma File_Write_closed h d b s :
  fds s !! h = Some d -> f_closed d = true ->
  File_Write (Some h) b s = (0, Some os_ErrClosed, s).
Proof. intros D C. unfold File_Write, bind, get. simpl. rewrite D. simpl. by rewrite C. Qed.


Lemma os_OpenFile_default path s :
  open_f (faults s) = [] ->
  os_OpenFile path DefaultFileFlag s =
    (Some (List.length (fds s)), None,
     set_trace (trace s ++ [EvOpen path DefaultFileFlag None])
       (set_dir (<[path := default (List.length (inodes s)) (dir s !! path)]> (dir s))
          (set_inodes (match dir s !! path with
                       | Some _ => inodes s
                       | None => inodes s ++ [[]]
                       end)
             (set_fds (fds s ++ [new_file (default (List.length (inodes s)) (dir s !! path))
                                   DefaultFileFlag]) s)))).
Proof.
  intros F. destruct (dir s !! path) as [i|] eqn:D.
  - rewrite (os_OpenFile_existing _ _ _ i F D). simpl.
    unfold set_trace, set_dir, set_inodes, set_fds. simpl.
    by rewrite (insert_id _ _ _ D).
  - by rewrite (os_OpenFile_creates _ _ F D).
Qed.

(** [os.Remove] never leaves the path behind unless the environment makes
    it fail. *)
Lemma os_Remove_any path s :
  remove_f (faults s) = [] ->
  os_Remove path s =
    (match dir s !! path with Some _ => None | None => Some ENOENT end,
     set_trace (trace s ++ [EvRemove path
                              (match dir s !! path with Some _ => None | None => Some ENOENT end)])
       (set_dir (delete path (dir s)) s)).
Proof.
  intros F. destruct (dir s !! path) as [i|] eqn:D.
  - by rewrite (os_Remove_ok _ _ i F D).
  - unfold os_Remove. unfold bind, get, fault. simpl. rewrite F, D. simpl.
    rewrite (delete_id _ _ D).
    destruct s as [? ? ? [] ?]; simpl in *; subst; reflexivity.
Qed.

Lemma File_Close_frame f s :
  dir (snd (File_Close f s)) = dir s /\
  inodes (snd (File_Close f s)) = inodes s /\
  List.length (fds (snd (File_Close f s))) = List.length (fds s) /\
  (faults s = no_faults -> faults (snd (File_Close f s)) = no_faults).
Proof.
  unfold File_Close, bind, get, emit, modify, ret, fault.
  destruct f as [h|]; simpl; [|auto].
  destruct (fds s !! h) as [d|]; simpl; [|auto].
  destruct (f_closed d); simpl; [auto|].
  repeat split; [by rewrite length_insert|].
  intros ->. reflexivity.
Qed.

Lemma length_append (a b : string) :
  String.length (String.append a b) = (String.length a + String.length b)%nat.
Proof. induction a as [|c a IH]; simpl; [done|]. by rewrite IH. Qed.

Lemma tmp_neq (name : string) : String.append name ".tmp" <> name.
Proof.
  intros H. apply (f_equal String.length) in H. rewrite length_append in H.
  simpl in H. lia.
Qed.


(** ** Compression *)

(** [CompressFile] with nothing failing: the target holds the compressed
    stream (after what it held before, the file being opened for append)
    and the temporary file is gone. *)
Lemma CompressFile_ok gzip w name s i :
  faults s = no_faults ->
  dir s !! tmp_of name = Some i ->
  let j := default (List.length (inodes s)) (dir s !! name) in
  let ino1 := match dir s !! name with
              | Some _ => inodes s
              | None => inodes s ++ [[]]
              end in
  exists s',
    CompressFile gzip w name s = (None, s') /\
    faults s' = no_faults /\
    dir s' = delete (tmp_of name) (<[name := j]> (dir s)) /\
    inodes s' = <[j := default [] (ino1 !! j) ++ gzip (default [] (ino1 !! i))]> ino1.
Proof.
  intros F T j ino1. unfold tmp_of in *.
  pose proof (tmp_neq name) as Hne.
  unfold CompressFile, bind.
  rewrite os_OpenFile_default by (rewrite ?F; done). fold j ino1. step.
  unfold CompressFile_body, bind, os_Open, gzip_NewWriter.
  erewrite os_OpenFile_existing; [| nf F | proj; by rewrite lookup_insert_ne]. step.
  erewrite File_Seek0_ok; [| nf F | proj; apply lookup_snoc | reflexivity]. step.
  unfold io_Copy, bind.
  erewrite File_ReadAll_ok;
    [| nf F | proj; apply list_lookup_insert_eq; fd_len | reflexivity ]. step.
  erewrite File_Close_ok;
    [| nf F | proj; apply list_lookup_insert_eq; fd_len | reflexivity ]. step.
  erewrite os_Remove_ok; [| nf F | proj; by rewrite lookup_insert_ne ]. step.
  unfold gzip_Close, bind. cbn [gz_dst gz_in].
  erewrite File_Write_append;
    [| nf F
     | proj; rewrite !list_lookup_insert_ne by fd_len;
       rewrite lookup_app_l by fd_len; apply lookup_snoc
     | reflexivity | reflexivity ].
  step.
  erewrite File_Close_ok;
    [| nf F | proj; apply list_lookup_insert_eq; fd_len | reflexivity ]. step.
  eexists. split; [reflexivity|]. proj.
  split; [done|]. split; [done|]. reflexivity.
Qed.









(** ** Retention *)

Lemma push_length cap q name :
  (0 < cap)%nat -> (List.length q <= cap)%nat -> (List.length (push cap q name) <= cap)%nat.
Proof.
  intros Hc Hq. unfold push.
  destruct (Nat.ltb_spec (List.length q) cap) as [H|H]; rewrite length_app; simpl.
  - lia.
  - destruct q; simpl in *; lia.
Qed.

(** The [retry] loop ends within two rounds: the name goes to the back of
    the queue, after the oldest name has been taken out and its file
    removed when the queue was full. *)
Lemma retry_spec n cap q w name s :
  (0 < cap)%nat -> (List.length q <= cap)%nat ->
  rollingfilech w = Some {| ch_cap := cap; ch_buf := q |} ->
  retry (S (S n)) w name s =
    (Done (with_queue cap (push cap q name) w),
     match evicted cap q with
     | x :: _ => after_remove x s
     | [] => s
     end).
Proof.
  intros Hc Hq Hw. unfold push, evicted, with_queue.
  cbn [retry]. unfold try_send at 1. rewrite Hw. cbn [ch_buf ch_cap].
  destruct (Nat.ltb_spec (List.length q) cap) as [H|H]; [reflexivity|].
  destruct q as [|x rest]; [simpl in *; lia|].
  unfold DoRemove, bind, try_recv. rewrite Hw. cbn [ch_buf ch_cap take tail].
  unfold after_remove.
  destruct (os_Remove x s) as [r s1].
  assert (E : try_send (Some {| ch_cap := cap; ch_buf := rest |}) name
              = Some {| ch_cap := cap; ch_buf := rest ++ [name] |}).
  { unfold try_send. cbn [ch_buf ch_cap]. simpl in Hq.
    destruct (Nat.ltb_spec (List.length rest) cap); [reflexivity|lia]. }
  destruct r as [e|]; cbn [retry].
  - destruct (log_Println "error in remove log file" e s1) as [u s2].
    unfold ret. cbn [set_rollingfilech rollingfilech]. rewrite E. reflexivity.
  - unfold ret. cbn [set_rollingfilech rollingfilech]. rewrite E. reflexivity.
Qed.

Lemma Reopen_newfile_frame w name s :
  let w' := snd (fst (Reopen_newfile w name s)) in
  rollingfilech w' = rollingfilech w /\ cf w' = cf w /\ absPath w' = absPath w /\
  (tasks w' = tasks w \/ tasks w' = tasks w ++ [name]).
Proof.
  unfold Reopen_newfile, bind.
  destruct (os_OpenFile (absPath w) DefaultFileFlag s) as [[f e] s1]. simpl.
  destruct e; simpl; auto.
Qed.

Lemma Reopen_frame w name s :
  let w' := snd (fst (Reopen w name s)) in
  rollingfilech w' = rollingfilech w /\ cf w' = cf w /\ absPath w' = absPath w /\
  (tasks w' = tasks w \/ tasks w' = tasks w ++ [name]).
Proof.
  unfold Reopen, bind.
  destruct (File_Close (file w) s) as [c s0].
  destruct (os_Rename (absPath w) _ s0) as [e1 s1].
  destruct (is_err e1); [|apply Reopen_newfile_frame].
  destruct (os_Rename (absPath w) _ s1) as [e2 s2].
  destruct (is_err e2); [|apply Reopen_newfile_frame].
  unfold time_Sleep at 1. simpl.
  destruct (os_Rename (absPath w) _ _) as [e3 s3].
  destruct (is_err e3); [|apply Reopen_newfile_frame].
  destruct (os_Open (absPath w) s3) as [r s4]. simpl. auto.
Qed.

Lemma Reopen_go_bounded gzip n cap w name s :
  (0 < cap)%nat -> queue_ok cap w ->
  exists w' s', Reopen_go gzip (S (S n)) w name s = (Done w', s') /\
                queue_ok cap w' /\ cf w' = cf w /\ absPath w' = absPath w /\
                tasks w' = tasks w.
Proof.
  intros Hc (q & Hq & Hl). unfold Reopen_go, bind.
  destruct (if Compress (cf w) then _ else _) as [ok s1].
  destruct ok; [|exists w, s1; repeat split; exists q; auto].
  destruct (0 <? MaxRemain (cf w)); [|exists w, s1; repeat split; exists q; auto].
  rewrite (retry_spec n cap q w name s1 Hc Hl Hq).
  eexists _, _. split; [reflexivity|]. repeat split.
  eexists. split; [reflexivity|]. by apply push_length.
Qed.

Lemma rotation_bounded gzip n cap w name s :
  (0 < cap)%nat -> queue_ok cap w -> tasks w = [] ->
  exists w' s', rotation gzip (S (S n)) w name s = (Done w', s') /\
                queue_ok cap w' /\ tasks w' = [].
Proof.
  intros Hc Hq Ht. unfold rotation, bind.
  destruct (Reopen_frame w name s) as (R1 & R2 & R3 & R4).
  destruct (Reopen w name s) as [[e w1] s1]. simpl in *.
  unfold run_task. rewrite Ht in R4. simpl in R4.
  assert (Q1 : queue_ok cap w1).
  { destruct Hq as (q & Hq & Hl). exists q. by rewrite R1. }
  destruct R4 as [R4|R4]; rewrite R4.
  - exists w1, s1. auto.
  - destruct (Reopen_go_bounded gzip n cap (set_tasks [] w1) name s1 Hc)
      as (w' & s' & E & Q & _ & _ & T); [exact Q1|].
    exists w', s'. auto.
Qed.

Lemma rotations_bounded gzip n cap names : forall w s,
  (0 < cap)%nat -> queue_ok cap w -> tasks w = [] ->
  exists w' s', rotations gzip (S (S n)) w names s = (Done w', s') /\
                queue_ok cap w' /\ tasks w' = [].
Proof.
  induction names as [|name rest IH]; intros w s Hc Hq Ht.
  - exists w, s. auto.
  - cbn [rotations]. unfold bind.
    destruct (rotation_bounded gzip n cap w name s Hc Hq Ht) as (w1 & s1 & E & Q & T).
    rewrite E. apply IH; auto.
Qed.

Lemma run_steps_bounded gzip n cap steps : forall w s,
  (0 < cap)%nat -> queue_ok cap w ->
  exists w' s', run_steps gzip (S (S n)) w steps s = (Done w', s') /\
                queue_ok cap w'.
Proof.
  induction steps as [|[name|k] rest IH]; intros w s Hc Hq.
  - exists w, s. auto.
  - cbn [run_steps]. unfold bind.
    destruct (Reopen_frame w name s) as (R1 & _).
    destruct (Reopen w name s) as [[e w1] s1]. simpl in *.
    apply IH; [exact Hc|]. destruct Hq as (q & Hq & Hl). exists q. by rewrite R1.
  - cbn [run_steps]. unfold bind, run_task_at.
    destruct (tasks w !! k) as [name|].
    + destruct (Reopen_go_bounded gzip n cap (set_tasks (delete k (tasks w)) w) name s Hc)
        as (w' & s' & E & Q & _); [exact Hq|].
      rewrite E. by apply IH.
    + unfold ret. by apply IH.
Qed.

(** *** A rotation with nothing failing *)

Lemma Reopen_ok w name s i :
  faults s = no_faults -> dir s !! absPath w = Some i -> rname w name <> absPath w ->
  exists h s',
    Reopen w name s = (None, set_tasks (tasks w ++ [name]) (set_file (Some h) w), s') /\
    faults s' = no_faults /\
    dir s' = <[absPath w := List.length (inodes s)]>
               (<[rname w name := i]> (delete (absPath w) (dir s))).
Proof.
  intros F D Hne. unfold Reopen, bind. fold (rname w name).
  destruct (File_Close_frame (file w) s) as (C1 & C2 & _ & C4). specialize (C4 F).
  destruct (File_Close (file w) s) as [c s0]. simpl in *.
  erewrite os_Rename_ok; [| by rewrite C4 | by rewrite C1]. cbn [is_err].
  unfold Reopen_newfile, bind.
  rewrite os_OpenFile_creates; [| nf C4 | proj; rewrite lookup_insert_ne by done;
                                          rewrite C1; apply lookup_delete_eq].
  step. eexists _, _. split; [reflexivity|]. proj. rewrite C1, C2. auto.
Qed.

Lemma after_remove_ok path s :
  faults s = no_faults ->
  faults (after_remove path s) = no_faults /\
  dir (after_remove path s) = delete path (dir s).
Proof.
  intros F. unfold after_remove. rewrite os_Remove_any by (by rewrite F).
  destruct (dir s !! path); simpl; auto.
Qed.

Lemma rotation_ok gzip n cap q w name s i :
  (0 < cap)%nat -> (List.length q <= cap)%nat ->
  rollingfilech w = Some {| ch_cap := cap; ch_buf := q |} ->
  0 < MaxRemain (cf w) -> tasks w = [] ->
  faults s = no_faults -> dir s !! absPath w = Some i ->
  rname w name <> absPath w ->
  exists w' s' j,
    rotation gzip (S (S n)) w name s = (Done w', s') /\
    rollingfilech w' = Some {| ch_cap := cap; ch_buf := push cap q name |} /\
    cf w' = cf w /\ absPath w' = absPath w /\ tasks w' = [] /\
    faults s' = no_faults /\
    dir s' = evicted_dir (evicted cap q)
               (compressed_dir (Compress (cf w)) name j
                  (<[absPath w := List.length (inodes s)]>
                     (<[rname w name := i]> (delete (absPath w) (dir s))))).
Proof.
  intros Hc Hl Hq Hm Ht F D Hr.
  unfold rotation, bind.
  destruct (Reopen_ok w name s i F D Hr) as (h & s1 & E & F1 & D1).
  rewrite E. cbn [snd]. unfold run_task. cbn [tasks set_tasks]. rewrite Ht. cbn [app].
  set (w1 := set_tasks [] _).
  assert (Hq1 : rollingfilech w1 = Some {| ch_cap := cap; ch_buf := q |}) by exact Hq.
  unfold Reopen_go, bind. change (cf w1) with (cf w).
  apply Z.ltb_lt in Hm. rewrite Hm.
  destruct (Compress (cf w)) eqn:C.
  - assert (T : dir s1 !! tmp_of name = Some i).
    { rewrite D1. unfold rname in *. rewrite C in *.
      rewrite lookup_insert_ne by done. apply lookup_insert_eq. }
    destruct (CompressFile_ok gzip w1 name s1 i F1 T) as (s2 & E2 & F2 & D2 & _).
    rewrite E2. unfold ret at 1.
    rewrite (retry_spec n cap q w1 name s2 Hc Hl Hq1).
    eexists _, _, _. split; [reflexivity|].
    repeat split.
    + destruct (evicted cap q); [exact F2|]. by apply after_remove_ok.
    + unfold evicted_dir, compressed_dir.
      destruct (evicted cap q) as [|y l].
      * rewrite D2, D1. unfold rname. rewrite C. reflexivity.
      * destruct (after_remove_ok y s2 F2) as (_ & ->).
        rewrite D2, D1. unfold rname. rewrite C. reflexivity.
  - unfold ret at 1.
    rewrite (retry_spec n cap q w1 name s1 Hc Hl Hq1).
    eexists _, _, 0%nat. split; [reflexivity|].
    repeat split.
    + destruct (evicted cap q); [exact F1|]. by apply after_remove_ok.
    + unfold evicted_dir, compressed_dir.
      destruct (evicted cap q) as [|y l].
      * by rewrite D1.
      * destruct (after_remove_ok y s1 F1) as (_ & ->). by rewrite D1.
Qed.

(** *** The directory after a rotation *)

Section rotated_dir.
Variables (c : bool) (a x : string) (i j k : nat) (ev : list string) (d : gmap string nat).

Let r : string := if c then tmp_of x else x.
Let d' : gmap string nat :=
  evicted_dir ev (compressed_dir c x j (<[a := k]> (<[r := i]> (delete a d)))).

Lemma rotated_dir_other p :
  p <> a -> p <> x -> p <> r -> (forall y l, ev = y :: l -> y <> p) ->
  d' !! p = d !! p.
Proof.
  intros H1 H2 H3 H4. subst d'. unfold evicted_dir, compressed_dir.
  assert (E : (if c then delete (tmp_of x) (<[x:=j]> (<[a:=k]> (<[r:=i]> (delete a d))))
               else <[a:=k]> (<[r:=i]> (delete a d))) !! p = d !! p).
  { subst r. destruct c.
    - rewrite lookup_delete_ne, !lookup_insert_ne, lookup_delete_ne by done. done.
    - rewrite !lookup_insert_ne, lookup_delete_ne by done. done. }
  destruct ev as [|y l]; [exact E|].
  rewrite lookup_delete_ne by (by apply (H4 y l)). exact E.
Qed.

Lemma rotated_dir_evicted y l : ev = y :: l -> d' !! y = None.
Proof. intros ->. subst d'. simpl. apply lookup_delete_eq. Qed.

Lemma rotated_dir_active :
  a <> r -> a <> x -> (forall y l, ev = y :: l -> y <> a) -> d' !! a = Some k.
Proof.
  intros H1 H2 H4. subst d'. unfold evicted_dir, compressed_dir.
  assert (E : (if c then delete (tmp_of x) (<[x:=j]> (<[a:=k]> (<[r:=i]> (delete a d))))
               else <[a:=k]> (<[r:=i]> (delete a d))) !! a = Some k).
  { subst r. destruct c.
    - rewrite lookup_delete_ne, lookup_insert_ne by done. apply lookup_insert_eq.
    - apply lookup_insert_eq. }
  destruct ev as [|y l]; [exact E|].
  rewrite lookup_delete_ne by (by apply (H4 y l)). exact E.
Qed.

Lemma rotated_dir_new :
  a <> x -> (forall y l, ev = y :: l -> y <> x) -> is_Some (d' !! x).
Proof.
  intros H2 H4. subst d'. unfold evicted_dir, compressed_dir.
  assert (E : is_Some ((if c then delete (tmp_of x) (<[x:=j]> (<[a:=k]> (<[r:=i]> (delete a d))))
                        else <[a:=k]> (<[r:=i]> (delete a d))) !! x)).
  { subst r. destruct c.
    - rewrite lookup_delete_ne by apply tmp_neq. rewrite lookup_insert_eq. eauto.
    - rewrite lookup_insert_ne by done. rewrite lookup_insert_eq. eauto. }
  destruct ev as [|y l]; [exact E|].
  rewrite lookup_delete_ne by (by apply (H4 y l)). exact E.
Qed.
End rotated_dir.

(** *** The queue over a series of rotations *)

Lemma fold_push_room cap names : forall q,
  (List.length q + List.length names <= cap)%nat ->
  fold_left (push cap) names q = q ++ names /\ evictions cap names q = [].
Proof.
  induction names as [|x rest IH]; intros q H; simpl in *.
  - by rewrite app_nil_r.
  - assert (P : push cap q x = q ++ [x]).
    { unfold push. destruct (Nat.ltb_spec (List.length q) cap); [done|lia]. }
    assert (V : evicted cap q = []).
    { unfold evicted. destruct (Nat.ltb_spec (List.length q) cap); [done|lia]. }
    rewrite P, V.
    destruct (IH (q ++ [x])) as (E1 & E2); [rewrite length_app; simpl; lia|].
    rewrite E1, E2, <- app_assoc. done.
Qed.

Lemma evictions_app cap a b : forall q,
  evictions cap (a ++ b) q = evictions cap a q ++ evictions cap b (fold_left (push cap) a q).
Proof.
  induction a as [|x a IH]; intros q; simpl; [done|].
  by rewrite IH, app_assoc.
Qed.

(** With capacity [cap], [cap + 1] names leave the last [cap] of them in
    the queue, and the one that left is the first. *)
Lemma fold_push_full cap names :
  (0 < cap)%nat -> List.length names = S cap ->
  fold_left (push cap) names [] = tail names /\
  evictions cap names [] = take 1 names.
Proof.
  intros Hc Hl.
  assert (exists init l, names = init ++ [l] /\ List.length init = cap) as (init & l & -> & Hi).
  { exists (take cap names).
    destruct (drop cap names) as [|l [|l2 rest]] eqn:D.
    - apply (f_equal List.length) in D. rewrite length_drop in D. simpl in D. lia.
    - exists l. split; [by rewrite <- D, take_drop|]. rewrite length_take. lia.
    - apply (f_equal List.length) in D. rewrite length_drop in D. simpl in D. lia. }
  destruct (fold_push_room cap init []) as (E1 & E2); [simpl; lia|].
  rewrite fold_left_app, evictions_app, E1, E2. simpl.
  unfold push, evicted. destruct (Nat.ltb_spec (List.length init) cap); [lia|].
  destruct init as [|y init]; [simpl in *; lia|]. simpl. rewrite ?app_nil_r. done.
Qed.

Lemma used_name w names x : x ∈ names -> x ∈ used w names.
Proof. unfold used. destruct (Compress (cf w)); [rewrite elem_of_app|]; auto. Qed.

Lemma used_rname w names x : x ∈ names -> rname w x ∈ used w names.
Proof.
  unfold used, rname. destruct (Compress (cf w)); [|done].
  intros H. rewrite elem_of_app. right. apply list_elem_of_fmap. eauto.
Qed.

Lemma push_cases cap q x :
  (push cap q x = q ++ [x] /\ evicted cap q = [])
  \/ (exists y q0, q = y :: q0 /\ push cap q x = q0 ++ [x] /\ evicted cap q = [y]).
Proof.
  unfold push, evicted. destruct (List.length q <? cap)%nat; [by left|].
  destruct q as [|y q0]; [by left|]. right. by exists y, q0.
Qed.

Lemma used_NoDup_names w l : NoDup (used w l) -> NoDup l.
Proof.
  unfold used. destruct (Compress (cf w)); [|done].
  intros H. by apply NoDup_app in H as (H & _).
Qed.

Lemma used_rname_neq w l p x :
  NoDup (used w l) -> p ∈ l -> x ∈ l -> p <> x -> p <> rname w x.
Proof.
  unfold used, rname. destruct (Compress (cf w)); [|done].
  intros H Hp Hx _ ->. apply NoDup_app in H as (_ & H & _).
  apply (H _ Hp). apply list_elem_of_fmap. eauto.
Qed.

Lemma rotations_ok gzip n cap names : forall seen q gone w s,
  (0 < cap)%nat -> (List.length q <= cap)%nat ->
  rollingfilech w = Some {| ch_cap := cap; ch_buf := q |} ->
  0 < MaxRemain (cf w) -> tasks w = [] ->
  faults s = no_faults -> is_Some (dir s !! absPath w) ->
  NoDup q ->
  (forall p, p ∈ q -> p ∈ seen /\ is_Some (dir s !! p)) ->
  (forall p, p ∈ gone -> p ∈ seen /\ dir s !! p = None) ->
  NoDup (absPath w :: used w (seen ++ names)) ->
  exists w' s',
    rotations gzip (S (S n)) w names s = (Done w', s') /\
    rollingfilech w' = Some {| ch_cap := cap; ch_buf := fold_left (push cap) names q |} /\
    (forall p, p ∈ fold_left (push cap) names q -> is_Some (dir s' !! p)) /\
    (forall p, p ∈ gone ++ evictions cap names q -> dir s' !! p = None).
Proof.
  induction names as [|x rest IH]; intros seen q gone w s Hc Hl Hq Hm Ht F [i D] Nq Iq Ig Nd.
  - exists w, s. simpl. rewrite app_nil_r. repeat split; auto.
    + intros p Hp. by apply Iq.
    + intros p Hp. by apply Ig.
  - apply NoDup_cons in Nd as [Na Nu].
    pose proof (used_NoDup_names _ _ Nu) as Nn.
    assert (Xin : x ∈ seen ++ x :: rest) by (rewrite elem_of_app, elem_of_cons; auto).
    assert (Sin : forall p, p ∈ seen -> p ∈ seen ++ x :: rest)
      by (intros p Hp; rewrite elem_of_app; auto).
    assert (X1 : x <> absPath w).
    { intros ->. apply Na. by apply used_name. }
    assert (X2 : rname w x <> absPath w).
    { intros E. apply Na. rewrite <- E. by apply used_rname. }
    assert (X3 : forall p, p ∈ seen -> p <> x).
    { intros p Hp ->. apply NoDup_app in Nn as (_ & Nn & _). apply (Nn _ Hp). left. }
    assert (X4 : forall p, p ∈ seen -> p <> rname w x).
    { intros p Hp. apply (used_rname_neq w (seen ++ x :: rest)); auto. }
    assert (X5 : forall p, p ∈ seen -> p <> absPath w).
    { intros p Hp ->. apply Na. apply used_name. auto. }
    destruct (rotation_ok gzip n cap q w x s i Hc Hl Hq Hm Ht F D X2)
      as (w1 & s1 & j & E & Q1 & C1 & A1 & T1 & F1 & D1).
    cbn [rotations]. unfold bind. rewrite E.
    assert (Ev : forall y l, evicted cap q = y :: l -> y ∈ q /\ l = []).
    { intros y l H. destruct (push_cases cap q x) as [(_ & V)|(y0 & q0 & -> & _ & V)];
        rewrite V in H; inversion H; subst. split; [left|done]. }
    destruct (IH (seen ++ [x]) (push cap q x) (gone ++ evicted cap q) w1 s1)
      as (w' & s' & E' & Q' & P' & G').
    + exact Hc.
    + by apply push_length.
    + exact Q1.
    + by rewrite C1.
    + exact T1.
    + exact F1.
    + rewrite A1, D1. eexists. unfold rname.
      apply rotated_dir_active.
      * intros H. apply X2. unfold rname. done.
      * done.
      * intros y l H. apply Ev in H as (H & _). apply X5. by apply Iq.
    + destruct (push_cases cap q x) as [(-> & _)|(y0 & q0 & -> & -> & _)].
      * apply NoDup_app. split; [done|]. split; [|apply NoDup_singleton].
        intros p Hp Hx. apply list_elem_of_singleton in Hx. subst.
        apply (X3 x); [by apply Iq|done].
      * apply NoDup_cons in Nq as (_ & Nq).
        apply NoDup_app. split; [done|]. split; [|apply NoDup_singleton].
        intros p Hp Hx. apply list_elem_of_singleton in Hx. subst.
        apply (X3 x); [apply Iq; by right|done].
    + intros p Hp. rewrite D1. unfold rname.
      assert (p = x \/ (p ∈ q /\ forall y l, evicted cap q = y :: l -> y <> p)) as [->|(Hpq & Hne)].
      { destruct (push_cases cap q x) as [(P & V)|(y0 & q0 & -> & P & V)];
          rewrite P in Hp; apply elem_of_app in Hp as [Hp|Hp].
        - right. split; [done|]. intros y l H. by rewrite V in H.
        - left. by apply list_elem_of_singleton in Hp.
        - right. split; [by right|]. intros y l H. rewrite V in H. inversion H; subst.
          apply NoDup_cons in Nq as (Nq & _). intros ->. done.
        - left. by apply list_elem_of_singleton in Hp. }
      * split; [rewrite elem_of_app; right; left|].
        apply rotated_dir_new; [done|].
        intros y l H. apply Ev in H as (H & _). apply X3. by apply Iq.
      * destruct (Iq p Hpq) as (Hs & Hd).
        split; [rewrite elem_of_app; by left|].
        rewrite rotated_dir_other;
          [exact Hd | by apply X5 | by apply X3 | exact (X4 p Hs) | exact Hne].
    + intros p Hp. rewrite D1. unfold rname.
      apply elem_of_app in Hp as [Hp|Hp].
      * destruct (Ig p Hp) as (Hs & Hd).
        split; [rewrite elem_of_app; by left|].
        destruct (evicted cap q) as [|y l] eqn:V.
        -- rewrite rotated_dir_other;
             [exact Hd | by apply X5 | by apply X3 | exact (X4 p Hs) | discriminate].
        -- destruct (decide (y = p)) as [->|Hyp].
           ++ by eapply rotated_dir_evicted.
           ++ rewrite rotated_dir_other;
                [exact Hd | by apply X5 | by apply X3 | exact (X4 p Hs) |].
              intros y' l' H. by inversion H; subst.
      * destruct (evicted cap q) as [|y l] eqn:V; [by apply elem_of_nil in Hp|].
        destruct (Ev y l eq_refl) as (Hy & ->).
        apply list_elem_of_singleton in Hp. subst p.
        split; [rewrite elem_of_app; left; by apply Iq|].
        by eapply rotated_dir_evicted.
    + replace ((seen ++ [x]) ++ rest) with (seen ++ x :: rest) by (by rewrite <- app_assoc).
      rewrite A1. unfold used in *. rewrite C1.
      apply NoDup_cons. split; done.
    + exists w', s'. split; [exact E'|]. split; [exact Q'|]. split; [exact P'|].
      intros p Hp. apply G'. simpl in Hp. by rewrite <- app_assoc.
Qed.

Lemma after_remove_adds path s :
  exists r t, trace (after_remove path s) = trace s ++ EvRemove path r :: t.
Proof.
  unfold after_remove.
  pose proof (os_Remove_adds path s) as H. unfold adds in H.
  destruct (os_Remove path s) as [r s1]. simpl in H.
  destruct r as [e|].
  - exists (Some e), [EvLog "error in remove log file" e].
    unfold log_Println, emit, modify. simpl. rewrite H, <- app_assoc. reflexivity.
  - exists None, []. exact H.
Qed.

(** C1, as amended. A writer made with [MaxRemain = N > 0] keeps at most
    [N] names in its retention queue, whatever the file system does and
    in whatever order the rotations and the goroutines they start run.
    When the name of a rotated file meets a full queue, the name at the
    head of the queue, the one queued first, is taken out and its file
    removed, and the name then goes to the back of the queue: the queue
    is emptied in the order it was filled, which is the order in which the
    goroutines reached it. When each goroutine has run to its end before
    the next rotation, that is the order of the rotations: after [N + 1]
    rotations with nothing failing (the names differing from each other
    and from the active path) the queue holds the last [N] names and
    their files exist, and the file of the first name is gone. *)
Theorem retention_queue_is_fifo (gzip : bytes -> bytes) (N : nat) (w : Writer) (fuel : nat) :
  (0 < N)%nat ->
  MaxRemain (cf w) = Z.of_nat N ->
  rollingfilech w = new_rollingfilech (cf w) ->
  tasks w = [] ->
  (2 <= fuel)%nat ->
  (forall names s,
     exists w' s', rotations gzip fuel w names s = (Done w', s') /\
                   (chan_len (rollingfilech w') <= N)%nat)
  /\ (forall x q name s,
        List.length (x :: q) = N ->
        retry fuel (with_queue N (x :: q) w) name s =
          (Done (with_queue N (q ++ [name]) w), after_remove x s) /\
        exists r t, trace (after_remove x s) = trace s ++ EvRemove x r :: t)
  /\ (forall names s,
        faults s = no_faults ->
        is_Some (dir s !! absPath w) ->
        List.length names = S N ->
        NoDup (absPath w :: used w names) ->
        exists w' s',
          rotations gzip fuel w names s = (Done w', s') /\
          chan_items (rollingfilech w') = tail names /\
          List.length (chan_items (rollingfilech w')) = N /\
          (forall p, p ∈ tail names -> is_Some (dir s' !! p)) /\
          (forall p, p ∈ take 1 names -> dir s' !! p = None))
  /\ (forall steps s,
        exists w' s', run_steps gzip fuel w steps s = (Done w', s') /\
                      (chan_len (rollingfilech w') <= N)%nat).
Proof.
  intros HN HM HQ HT HF.
  destruct fuel as [|[|n]]; [lia|lia|]. clear HF.
  assert (Q0 : rollingfilech w = Some {| ch_cap := N; ch_buf := [] |}).
  { rewrite HQ. unfold new_rollingfilech, make_chan. rewrite HM.
    destruct (Z.ltb_spec 0 (Z.of_nat N)); [|lia]. by rewrite Nat2Z.id. }
  split; [|split; [|split]]; cycle 3.
  - intros steps s.
    destruct (run_steps_bounded gzip n N steps w s HN) as (w' & s' & E & q & Hq & Hl).
    + exists []. split; [exact Q0|simpl; lia].
    + exists w', s'. split; [exact E|]. rewrite Hq. exact Hl.
  - intros names s.
    destruct (rotations_bounded gzip n N names w s HN) as (w' & s' & E & (q & Hq & Hl) & _).
    + exists []. split; [exact Q0|simpl; lia].
    + exact HT.
    + exists w', s'. split; [exact E|]. rewrite Hq. exact Hl.
  - intros x q name s Hl. split; [|apply after_remove_adds].
    rewrite (retry_spec n N (x :: q) (with_queue N (x :: q) w) name s HN); [|lia|reflexivity].
    unfold push, evicted. rewrite Hl, Nat.ltb_irrefl. reflexivity.
  - intros names s F D Hl Nd.
    destruct (rotations_ok gzip n N names [] [] [] w s) as (w' & s' & E & Q & P & G); auto.
    + simpl. lia.
    + lia.
    + constructor.
    + intros p Hp. by apply elem_of_nil in Hp.
    + intros p Hp. by apply elem_of_nil in Hp.
    + destruct (fold_push_full N names HN Hl) as (E1 & E2).
      rewrite E1 in Q, P. rewrite E2 in G. simpl in G.
      exists w', s'. split; [exact E|]. rewrite Q. simpl.
      split; [done|]. split; [|split; [exact P|exact G]].
      destruct names; simpl in *; lia.
Qed.

Lemma retention_queue_is_fifo_witness :
  (0 < 2)%nat /\ MaxRemain (cf wr0) = Z.of_nat 2 /\
  rollingfilech wr0 = new_rollingfilech (cf wr0) /\ tasks wr0 = [] /\ (2 <= 2)%nat /\
  exists w' s',
    rotations toy_gzip 2 wr0 ["a.log"; "b.log"; "c.log"] w0 = (Done w', s') /\
    chan_items (rollingfilech w') = ["b.log"; "c.log"] /\
    List.length (chan_items (rollingfilech w')) = 2%nat /\
    (forall p, p ∈ ["b.log"; "c.log"] -> is_Some (dir s' !! p)) /\
    (forall p, p ∈ ["a.log"] -> dir s' !! p = None).
Proof.
  assert (H1 : (0 < 2)%nat) by lia.
  assert (H2 : MaxRemain (cf wr0) = Z.of_nat 2) by reflexivity.
  assert (H3 : rollingfilech wr0 = new_rollingfilech (cf wr0)) by reflexivity.
  assert (H4 : tasks wr0 = []) by reflexivity.
  assert (H5 : (2 <= 2)%nat) by lia.
  split; [exact H1|]. split; [exact H2|]. split; [exact H3|]. split; [exact H4|].
  split; [exact H5|].
  apply (proj1 (proj2 (proj2 (retention_queue_is_fifo toy_gzip 2 wr0 2 H1 H2 H3 H4 H5)))
           ["a.log"; "b.log"; "c.log"] w0).
  - reflexivity.
  - by exists 0%nat.
  - reflexivity.
  - apply (bool_decide_unpack _). vm_compute. exact I.
Defined.

(** C1, as first stated, does not hold: the file removed is not always
    that of the oldest rotation. With [MaxRemain = 1], a rotation to
    a.log and then one to b.log, the goroutine of the second reaching the
    queue before the goroutine of the first: the second queues b.log, the
    first meets a full queue, removes b.log and queues a.log. The file of
    the older rotation is kept and that of the newer one is gone. *)
Lemma retention_evicts_newer_rotation :
  exists w' s',
    run_steps toy_gzip 2 wr_one
      [DoReopen "a.log"; DoReopen "b.log"; DoTask 1; DoTask 0] w0 = (Done w', s') /\
    faults s' = no_faults /\
    chan_items (rollingfilech w') = ["a.log"] /\
    is_Some (dir s' !! "a.log") /\
    dir s' !! "b.log" = None /\
    last (trace s') = Some (EvRemove "b.log" None).
Proof.
  eexists _, _. split; [vm_compute; reflexivity|].
  split; [reflexivity|]. split; [reflexivity|].
  split; [by exists 0%nat|]. split; reflexivity.
Qed.

(** ** Closing *)

Lemma File_Close_twice f s s1 :
  File_Close f s = (None, s1) -> File_Close f s1 = (Some os_ErrClosed, s1).
Proof.
  unfold File_Close, bind, get, emit, modify, ret, fault.
  destruct f as [h|]; simpl; [|discriminate].
  destruct (fds s !! h) as [d|] eqn:D; simpl; [|discriminate].
  destruct (f_closed d) eqn:C; simpl; [discriminate|].
  destruct (hd_fault (close_f (faults s))); simpl; [discriminate|].
  intros H. inversion H; subst. simpl.
  rewrite list_lookup_insert_eq by (by eapply lookup_lt_Some). reflexivity.
Qed.

(** A write through a file that was closed with success changes nothing. *)
Lemma File_Write_after_Close f b s s1 :
  File_Close f s = (None, s1) -> File_Write f b s1 = (0, Some os_ErrClosed, s1).
Proof.
  unfold File_Close, File_Write, bind, get, emit, modify, ret, fault.
  destruct f as [h|]; simpl; [|discriminate].
  destruct (fds s !! h) as [d|] eqn:D; simpl; [|discriminate].
  destruct (f_closed d) eqn:C; simpl; [discriminate|].
  destruct (hd_fault (close_f (faults s))); simpl; [discriminate|].
  intros H. inversion H; subst. simpl.
  rewrite list_lookup_insert_eq by (by eapply lookup_lt_Some). reflexivity.
Qed.

Lemma onClose_frame q : forall w s,
  closed (fst (onClose q w s)) = closed w /\
  aw (fst (onClose q w s)) = aw w /\
  ctx (fst (onClose q w s)) = ctx w /\
  drain (fst (onClose q w s)) = drain w.
Proof.
  induction q as [|b rest IH]; intros w s; simpl; [auto|].
  unfold bind.
  destruct (File_Write (file (aw w)) b _) as [[n e] s1]. simpl.
  destruct e as [e|].
  - unfold errChan_send. simpl. destruct (readers w); simpl; [auto|].
    match goal with |- context [onClose rest ?x s1] => destruct (IH x s1) as (-> & -> & -> & ->) end.
    auto.
  - match goal with |- context [onClose rest ?x s1] => destruct (IH x s1) as (-> & -> & -> & ->) end.
    auto.
Qed.

(** C6. For each of the four writers: when a first [Close] has returned
    nil, a second [Close] returns the closed condition and leaves the
    world as it is, so the file is not closed a second time. *)
Theorem Close_twice :
  (forall (w : Writer) (s s1 : World),
     Writer_Close w s = (None, s1) ->
     already_closed (fst (Writer_Close w s1)) /\ snd (Writer_Close w s1) = s1)
  /\ (forall (l : LockedWriter) (s s1 : World),
        LockedWriter_Close l s = (Done None, s1) ->
        (exists e, fst (LockedWriter_Close l s1) = Done e /\ already_closed e) /\
        snd (LockedWriter_Close l s1) = s1)
  /\ (forall (a a1 : AsynchronousWriter) (s s1 : World),
        AsynchronousWriter_Close a s = (None, a1, s1) ->
        AsynchronousWriter_Close a1 s1 = (Some ErrClosed, a1, s1))
  /\ (forall (b : BufferWriter) (s s1 : World),
        BufferWriter_Close b s = (None, s1) ->
        already_closed (fst (BufferWriter_Close b s1)) /\ snd (BufferWriter_Close b s1) = s1).
Proof.
  split; [|split; [|split]].
  - intros w s s1 H. unfold Writer_Close in *.
    rewrite (File_Close_twice _ _ _ H). split; [by right|done].
  - intros l s s1 H. unfold LockedWriter_Close, bind in *. destruct (mu l); [discriminate|].
    destruct (File_Close (file (lw l)) s) as [e s'] eqn:E. inversion H; subst.
    rewrite (File_Close_twice _ _ _ E). split; [|done].
    exists (Some os_ErrClosed). split; [done|by right].
  - intros a a1 s s1 H. unfold AsynchronousWriter_Close, bind in *.
    destruct (closed a =? 0) eqn:C; [|discriminate].
    match type of H with context [onClose ?q ?x s] =>
      destruct (onClose_frame q x s) as (F1 & _); destruct (onClose q x s) as [a' s'] end.
    destruct (File_Close (file (aw a')) s') as [e s'']. inversion H; subst.
    simpl in F1. by rewrite F1.
  - intros b s s1 H. unfold BufferWriter_Close, bind in *.
    destruct (File_Write (file (bw b)) (sl_data (buf b)) s) as [n s'].
    rewrite (File_Write_after_Close _ _ _ _ H), (File_Close_twice _ _ _ H).
    split; [by right|done].
Qed.

Lemma Close_twice_witness :
  (Writer_Close wr0 w0 = (None, snd (Writer_Close wr0 w0)) /\
   Writer_Close wr0 (snd (Writer_Close wr0 w0))
     = (Some os_ErrClosed, snd (Writer_Close wr0 w0)))
  /\ (AsynchronousWriter_Close aw0 w0
        = (None, snd (fst (AsynchronousWriter_Close aw0 w0)),
           snd (AsynchronousWriter_Close aw0 w0)) /\
      fst (fst (AsynchronousWriter_Close (snd (fst (AsynchronousWriter_Close aw0 w0)))
                  (snd (AsynchronousWriter_Close aw0 w0)))) = Some ErrClosed).
Proof.
  assert (H1 : Writer_Close wr0 w0 = (None, snd (Writer_Close wr0 w0))) by reflexivity.
  assert (H2 : AsynchronousWriter_Close aw0 w0
               = (None, snd (fst (AsynchronousWriter_Close aw0 w0)),
                  snd (AsynchronousWriter_Close aw0 w0))) by reflexivity.
  split; split; [exact H1| |exact H2|].
  - destruct (proj1 Close_twice wr0 w0 _ H1) as ([E|E] & S).
    + vm_compute in E. discriminate.
    + apply injective_projections; [exact E|exact S].
  - by rewrite (proj1 (proj2 (proj2 Close_twice)) aw0 _ w0 _ H2).
Defined.

(** ** The asynchronous writer after [Close] *)

Lemma Close_sets_closed a s :
  closed (snd (fst (AsynchronousWriter_Close a s))) <> 0.
Proof.
  unfold AsynchronousWriter_Close, bind.
  destruct (Z.eqb_spec (closed a) 0) as [C|C]; [|exact C].
  match goal with |- context [onClose ?q ?x s] =>
    destruct (onClose_frame q x s) as (F1 & _); destruct (onClose q x s) as [a' s'] end.
  destruct (File_Close (file (aw a')) s') as [e s'']. simpl in *. rewrite F1. done.
Qed.

Lemma writer_step_closed p a s :
  match fst (writer_step p a s) with
  | Done a' => closed a' = closed a
  | _ => True
  end.
Proof.
  unfold writer_step, bind, errChan_send.
  destruct (drain a).
  - destruct (ch_buf (queue a)) as [|b rest].
    + destruct (ctx a); done.
    + destruct (ctx a && p); [done|].
      destruct (File_Write _ b s) as [[n e] s1]. simpl. destruct e; done.
  - destruct (readers a); done.
  - done.
  - done.
Qed.

(** C7. Once [Close] has been called, every [Write] of the asynchronous
    writer returns at once with count 0 and [ErrClosed], and changes
    neither the writer (its queue in particular) nor the files; this stays
    so through later steps of the drain goroutine and later [Close]s. *)
Theorem Write_after_Close (BufferSize fuel : nat) (pick : bool)
    (a : AsynchronousWriter) (b : bytes) (s : World) :
  let a1 := snd (fst (AsynchronousWriter_Close a s)) in
  let s1 := snd (AsynchronousWriter_Close a s) in
  AsynchronousWriter_Write BufferSize fuel pick a1 b s1 = (Done (0, Some ErrClosed, a1), s1)
  /\ (forall a' s', closed a' <> 0 ->
        AsynchronousWriter_Write BufferSize fuel pick a' b s' = (Done (0, Some ErrClosed, a'), s')
        /\ closed (snd (fst (AsynchronousWriter_Close a' s'))) <> 0
        /\ forall p a'', fst (writer_step p a' s') = Done a'' -> closed a'' <> 0).
Proof.
  assert (W : forall a' s', closed a' <> 0 ->
            AsynchronousWriter_Write BufferSize fuel pick a' b s'
              = (Done (0, Some ErrClosed, a'), s')).
  { intros a' s' C. unfold AsynchronousWriter_Write.
    destruct (Z.eqb_spec (closed a') 0); [done|reflexivity]. }
  split.
  - apply W, Close_sets_closed.
  - intros a' s' C. split; [by apply W|]. split; [apply Close_sets_closed|].
    intros p a'' H. pose proof (writer_step_closed p a' s') as G.
    rewrite H in G. by rewrite G.
Qed.

(** ** The buffered writer *)

Lemma File_Write_injected h d b s l :
  write_f (faults s) = true :: l -> fds s !! h = Some d -> f_closed d = false ->
  f_flag d = DefaultFileFlag ->
  File_Write (Some h) b s =
    (0, Some EIO, set_trace (trace s ++ [EvWrite h b (Some EIO)])
                    (set_faults (snd (pop SysWrite (faults s))) s)).
Proof.
  intros F D C Fl. unfold File_Write, bind, get, fault. simpl.
  rewrite D. simpl. rewrite C. simpl. rewrite F, Fl. reflexivity.
Qed.

(** C8, as amended. [Close] of the buffered writer issues one write of
    all the bytes left in the buffer and then closes the file. When the
    write succeeds the bytes are at the end of the file; when it fails
    the file is as it was and the failure is dropped: [Close] returns what
    closing the file returns. *)
Theorem BufferWriter_Close_flushes (w : BufferWriter) (s : World) (h : nat) (d : File)
    (old : bytes) :
  file (bw w) = Some h ->
  fds s !! h = Some d ->
  f_closed d = false ->
  f_flag d = DefaultFileFlag ->
  inodes s !! f_ino d = Some old ->
  close_f (faults s) = [] ->
  (write_f (faults s) = [] ->
     fst (BufferWriter_Close w s) = None /\
     inodes (snd (BufferWriter_Close w s)) !! f_ino d = Some (old ++ sl_data (buf w)) /\
     trace (snd (BufferWriter_Close w s))
       = trace s ++ [EvWrite h (sl_data (buf w)) None; EvClose h None])
  /\ (forall l, write_f (faults s) = true :: l ->
        fst (BufferWriter_Close w s) = None /\
        inodes (snd (BufferWriter_Close w s)) = inodes s /\
        trace (snd (BufferWriter_Close w s))
          = trace s ++ [EvWrite h (sl_data (buf w)) (Some EIO); EvClose h None]).
Proof.
  intros Hf D C Fl I Fc. unfold BufferWriter_Close, bind. rewrite Hf. split.
  - intros Fw. rewrite (File_Write_append h d _ s Fw D C Fl). step.
    erewrite File_Close_ok;
      [| nf Fc | proj; apply list_lookup_insert_eq; by eapply lookup_lt_Some | exact C].
    proj. rewrite I. simpl. split; [done|]. split; [|by rewrite <- app_assoc].
    apply list_lookup_insert_eq. by eapply lookup_lt_Some.
  - intros l Fw. rewrite (File_Write_injected h d _ s l Fw D C Fl). step.
    erewrite File_Close_ok; [| proj; exact Fc | proj; exact D | exact C].
    proj. split; [done|]. split; [done|]. by rewrite <- app_assoc.
Qed.

Lemma BufferWriter_Close_flushes_witness :
  (file (bw bw_ab) = Some 0%nat /\ fds w0 !! 0%nat = Some (new_file 0 DefaultFileFlag) /\
   inodes w0 !! 0%nat = Some [] /\ close_f (faults w0) = [] /\ write_f (faults w0) = []) /\
  fst (BufferWriter_Close bw_ab w0) = None /\
  inodes (snd (BufferWriter_Close bw_ab w0)) !! 0%nat = Some [Byte.x61; Byte.x62] /\
  trace (snd (BufferWriter_Close bw_ab w0))
    = trace w0 ++ [EvWrite 0 [Byte.x61; Byte.x62] None; EvClose 0 None].
Proof.
  split; [repeat split|].
  exact (proj1 (BufferWriter_Close_flushes bw_ab w0 0 (new_file 0 DefaultFileFlag) []
                  eq_refl eq_refl eq_refl eq_refl eq_refl eq_refl) eq_refl).
Defined.

(** C8, as stated, fails. A byte is accepted by [Write]; the write made
    by [Close] fails; [Close] returns nil and the byte is not in the
    file. *)
Lemma BufferWriter_Close_loses_bytes :
  let w1 := {| bw := wr0; buf := append toy_growslice (buf bw0) [Byte.x41]; swaping := 0 |} in
  BufferWriter_Write toy_growslice bw0 [Byte.x41] w0 = (Done (1, None, w1), w0) /\
  fst (BufferWriter_Close w1 (set_faults write_fails w0)) = None /\
  content (snd (BufferWriter_Close w1 (set_faults write_fails w0))) "app.log" = Some [].
Proof. vm_compute. auto. Qed.

(** *** The flush flag under interleaving *)

Lemma holders_insert (l : list bw_pc) : forall i pc old,
  l !! i = Some old ->
  (List.length (List.filter holds_flag (<[i := pc]> l)) + flag_count old
   = List.length (List.filter holds_flag l) + flag_count pc)%nat.
Proof.
  induction l as [|x l IH]; intros i pc old H; [done|].
  destruct i as [|i]; simpl in *.
  - inversion H; subst. unfold flag_count.
    destruct (holds_flag old), (holds_flag pc); simpl; lia.
  - specialize (IH i pc old H). destruct (holds_flag x); simpl; lia.
Qed.

Lemma holders_set_pc i pc old st :
  sh_pcs st !! i = Some old ->
  (holders (set_pc i pc st) + flag_count old = holders st + flag_count pc)%nat.
Proof. intros H. unfold holders. simpl. by apply holders_insert. Qed.

Lemma bw_step_inv growslice i b st s :
  bw_inv st -> bw_inv (fst (bw_step growslice i b st s)).
Proof.
  intros Inv. unfold bw_step.
  destruct (sh_pcs st !! i) as [pc|] eqn:P; [|exact Inv].
  assert (Hc : forall pc', (holders (set_pc i pc' st) + flag_count pc
                            = holders st + flag_count pc')%nat)
    by (intros; by apply holders_set_pc).
  assert (Hs : forall w' pc', holders (set_pc i pc' (set_shared w' st))
                              = holders (set_pc i pc' st)) by reflexivity.
  destruct pc as [|b0 old|b0|b0|b0 ob|b0|]; unfold bind, ret; cbn [fst].
  - specialize (Hc (BwLoaded b (buf (sh_w st)))). unfold flag_count in Hc. simpl in Hc.
    unfold bw_inv in *. cbn [sh_w set_pc]. lia.
  - specialize (Hc (BwStored b0)). unfold flag_count in Hc. simpl in Hc.
    unfold bw_inv in *. rewrite Hs. cbn [sh_w set_pc set_shared swaping]. lia.
  - destruct (Z.ltb_spec (BufferWriterThershould (cf (bw (sh_w st)))) (len (buf (sh_w st))));
      destruct (Z.eqb_spec (swaping (sh_w st)) 0); cbn [andb fst].
    + specialize (Hc (BwFlag b0)). unfold flag_count in Hc. simpl in Hc.
      unfold bw_inv in *. rewrite Hs. cbn [sh_w set_pc set_shared swaping]. lia.
    + specialize (Hc BwIdle). unfold flag_count in Hc. simpl in Hc.
      unfold bw_inv in *. cbn [sh_w set_pc]. lia.
    + specialize (Hc BwIdle). unfold flag_count in Hc. simpl in Hc.
      unfold bw_inv in *. cbn [sh_w set_pc]. lia.
    + specialize (Hc BwIdle). unfold flag_count in Hc. simpl in Hc.
      unfold bw_inv in *. cbn [sh_w set_pc]. lia.
  - destruct (make_slice _); cbn [fst].
    + specialize (Hc (BwSwapped b0 (buf (sh_w st)))). unfold flag_count in Hc. simpl in Hc.
      unfold bw_inv in *. rewrite Hs. cbn [sh_w set_pc set_shared swaping]. lia.
    + specialize (Hc BwPanicked). unfold flag_count in Hc. simpl in Hc.
      unfold bw_inv in *. cbn [sh_w set_pc]. lia.
  - destruct (File_Write _ _ s) as [n s1]. cbn [fst].
    specialize (Hc (BwWritten b0)). unfold flag_count in Hc. simpl in Hc.
    unfold bw_inv in *. cbn [sh_w set_pc]. lia.
  - specialize (Hc BwIdle). unfold flag_count in Hc. simpl in Hc.
    unfold bw_inv in *. rewrite Hs. cbn [sh_w set_pc set_shared swaping].
    destruct Inv as [(S0 & H0)|(S1 & H1)]; lia.
  - exact Inv.
Qed.

Lemma bw_run_inv growslice sched : forall st s,
  bw_inv st -> bw_inv (fst (bw_run growslice sched st s)).
Proof.
  induction sched as [|[i b] rest IH]; intros st s Inv; [exact Inv|].
  cbn [bw_run]. unfold bind.
  pose proof (bw_step_inv growslice i b st s Inv) as H.
  destruct (bw_step growslice i b st s) as [st' s']. by apply IH.
Qed.

Lemma holders_idle k w : holders {| sh_w := w; sh_pcs := repeat BwIdle k |} = 0%nat.
Proof. unfold holders. simpl. induction k; simpl; auto. Qed.

Lemma make_slice_ok c : 0 <= c -> make_slice c = Some {| sl_data := []; sl_cap := c |}.
Proof. intros H. unfold make_slice. destruct (Z.ltb_spec c 0); [lia|done]. Qed.

Lemma BufferWriter_Write_flushes growslice w b s :
  fire (bw w) = [] -> swaping w = 0 ->
  BufferWriterThershould (cf (bw w)) < len (append growslice (buf w) b) ->
  0 <= wrap64 (BufferWriterThershould (cf (bw w)) * 2) ->
  BufferWriter_Write growslice w b s =
    (Done (Z.of_nat (List.length b), None,
           {| bw := bw w; buf := fresh_buffer w; swaping := 0 |}),
     snd (File_Write (file (bw w)) (sl_data (buf w) ++ b) s)).
Proof.
  intros Hf Hs Hl Hc. unfold BufferWriter_Write, bind. rewrite Hf. unfold ret at 1.
  cbn [fst snd bw buf swaping]. rewrite Hs.
  apply Z.ltb_lt in Hl. rewrite Hl. cbn [andb Z.eqb].
  unfold BufferWriter_flush, bind. cbn [bw buf]. rewrite (make_slice_ok _ Hc).
  cbn [append sl_data].
  destruct (File_Write (file (bw w)) (sl_data (buf w) ++ b) s) as [r s1]. reflexivity.
Qed.

(** A goroutine alone goes through the statements of one flushing
    [Write] in six steps, with the result of [BufferWriter_Write]. *)
Lemma bw_run_alone growslice w b s :
  swaping w = 0 ->
  BufferWriterThershould (cf (bw w)) < len (append growslice (buf w) b) ->
  0 <= wrap64 (BufferWriterThershould (cf (bw w)) * 2) ->
  bw_run growslice (repeat (0%nat, b) 6) {| sh_w := w; sh_pcs := [BwIdle] |} s =
    ({| sh_w := {| bw := bw w; buf := fresh_buffer w; swaping := 0 |}; sh_pcs := [BwIdle] |},
     snd (File_Write (file (bw w)) (sl_data (buf w) ++ b) s)).
Proof.
  intros Hs Hl Hc. apply Z.ltb_lt in Hl.
  cbn [repeat bw_run]. unfold bw_step, bind, ret. cbn.
  rewrite Hl, Hs. cbn. rewrite (make_slice_ok _ Hc). cbn.
  destruct (File_Write (file (bw w)) (sl_data (buf w) ++ b) s) as [r s1]. reflexivity.
Qed.

(** C4, as amended. A [Write] of the buffered writer that takes the
    buffer over the threshold while the flag is 0 sets the flag, puts an
    empty buffer of capacity twice the threshold in place, writes all of
    the old buffer to the file and sets the flag back to 0. Whatever the
    interleaving of the goroutines that call [Write], at most one of them
    is between the compare-and-swap it won and its store of 0, and the
    flag is 1 exactly then. *)
Theorem BufferWriter_flush_protocol (growslice : Z -> Z -> Z) (w : BufferWriter)
    (b : bytes) (s : World) :
  fire (bw w) = [] ->
  swaping w = 0 ->
  BufferWriterThershould (cf (bw w)) < len (append growslice (buf w) b) ->
  0 <= wrap64 (BufferWriterThershould (cf (bw w)) * 2) ->
  BufferWriter_Write growslice w b s =
    (Done (Z.of_nat (List.length b), None,
           {| bw := bw w; buf := fresh_buffer w; swaping := 0 |}),
     snd (File_Write (file (bw w)) (sl_data (buf w) ++ b) s))
  /\ bw_run growslice (repeat (0%nat, b) 6) {| sh_w := w; sh_pcs := [BwIdle] |} s =
       ({| sh_w := {| bw := bw w; buf := fresh_buffer w; swaping := 0 |};
           sh_pcs := [BwIdle] |},
        snd (File_Write (file (bw w)) (sl_data (buf w) ++ b) s))
  /\ (forall k sched s0,
        let st := fst (bw_run growslice sched {| sh_w := w; sh_pcs := repeat BwIdle k |} s0) in
        (holders st <= 1)%nat /\ swaping (sh_w st) = Z.of_nat (holders st)).
Proof.
  intros Hf Hs Hl Hc.
  split; [by apply BufferWriter_Write_flushes|].
  split; [by apply bw_run_alone|].
  intros k sched s0.
  assert (I0 : bw_inv {| sh_w := w; sh_pcs := repeat BwIdle k |}).
  { left. split; [exact Hs|apply holders_idle]. }
  destruct (bw_run_inv growslice sched _ s0 I0) as [(S0 & H0)|(S1 & H1)]; cbv zeta.
  - rewrite S0, H0. split; [lia|done].
  - rewrite S1, H1. split; [lia|done].
Qed.

Lemma BufferWriter_flush_protocol_witness :
  (fire (bw bw0) = [] /\ swaping bw0 = 0 /\
   BufferWriterThershould (cf (bw bw0))
     < len (append toy_growslice (buf bw0) (repeat Byte.x41 5)) /\
   0 <= wrap64 (BufferWriterThershould (cf (bw bw0)) * 2)) /\
  BufferWriter_Write toy_growslice bw0 (repeat Byte.x41 5) w0 =
    (Done (5, None, {| bw := wr0; buf := fresh_buffer bw0; swaping := 0 |}),
     snd (File_Write (Some 0%nat) (repeat Byte.x41 5) w0)).
Proof.
  assert (H1 : fire (bw bw0) = []) by reflexivity.
  assert (H2 : swaping bw0 = 0) by reflexivity.
  assert (H3 : BufferWriterThershould (cf (bw bw0))
               < len (append toy_growslice (buf bw0) (repeat Byte.x41 5))) by reflexivity.
  assert (H4 : 0 <= wrap64 (BufferWriterThershould (cf (bw bw0)) * 2)) by (vm_compute; discriminate).
  split; [auto|].
  exact (proj1 (BufferWriter_flush_protocol toy_growslice bw0 (repeat Byte.x41 5) w0 H1 H2 H3 H4)).
Defined.

(** C4, as stated, fails on the capacity: with a threshold of 4 bytes the
    buffer put in place by the flush has capacity 8. *)
Lemma flush_buffer_capacity_is_not_threshold :
  exists w', fst (BufferWriter_Write toy_growslice bw0 (repeat Byte.x41 5) w0)
             = Done (5, None, w') /\
             BufferWriterThershould (cf (bw w')) = 4 /\
             sl_cap (buf w') = 8 /\
             sl_cap (buf w') <> BufferWriterThershould (cf (bw w')).
Proof.
  eexists. split; [vm_compute; reflexivity|]. repeat split. discriminate.
Qed.

(** ** The drain goroutine of the asynchronous writer *)

(** A goroutine that cannot move in a state stays there for ever. *)
Lemma writer_run_blocked n : forall a s,
  writer_step false a s = (Blocked, s) -> writer_run n a s = (a, s).
Proof.
  induction n as [|n IH]; intros a s H; [done|].
  cbn [writer_run]. unfold bind. rewrite H. reflexivity.
Qed.

(** C5, as amended. In the goroutine [writer] a failed write takes the
    goroutine to the send on the error channel with the chunk in hand and
    the pool as it was. There it waits as long as nobody receives; when a
    goroutine outside receives, or a [Write] that meets no rotation
    signal, the error is delivered and the next step puts the chunk back
    into the pool. *)
Theorem drain_sends_errors_blocking (BufferSize fuel : nat) (p : bool)
    (a : AsynchronousWriter) (s : World) (b : bytes) (rest : list bytes) (err : error) :
  drain a = AtSelect ->
  ch_buf (queue a) = b :: rest ->
  ctx a && p = false ->
  snd (fst (File_Write (file (aw a)) b s)) = Some err ->
  exists a1,
    writer_step p a s = (Done a1, snd (File_Write (file (aw a)) b s)) /\
    drain a1 = AtSend err b /\ pool a1 = pool a /\ received a1 = received a /\
    (forall p' s', readers a1 = 0%nat ->
       writer_step p' a1 s' = (Blocked, s') /\
       forall n, writer_run n a1 s' = (a1, s')) /\
    (forall p' s' k, readers a1 = S k ->
       exists a2 a3,
         writer_step p' a1 s' = (Done a2, s') /\
         received a2 = received a ++ [err] /\ drain a2 = AtPut b /\ pool a2 = pool a /\
         writer_step p' a2 s' = (Done a3, s') /\
         drain a3 = AtSelect /\ pool a3 = List.length b :: pool a) /\
    (forall b' s', closed a1 = 0 -> fire (aw a1) = [] ->
       AsynchronousWriter_Write BufferSize fuel true a1 b' s'
         = (Done (0, Some err, set_drain (AtPut b) a1), s')).
Proof.
  intros Hd Hq Hc He.
  unfold writer_step at 1. rewrite Hd, Hq, Hc. unfold bind.
  cbn [aw set_queue].
  destruct (File_Write (file (aw a)) b s) as [[n e] s1]. simpl in He. subst e.
  cbn [snd fst]. eexists. split; [reflexivity|].
  split; [reflexivity|]. split; [reflexivity|]. split; [reflexivity|].
  split; [|split].
  - intros p' s' Hr.
    assert (B : forall q, writer_step q
                (set_drain (AtSend err b)
                   (set_queue {| ch_cap := ch_cap (queue a); ch_buf := rest |} a)) s'
                = (Blocked, s')).
    { intros q. unfold writer_step, errChan_send. cbn in *. by rewrite Hr. }
    split; [apply B|]. intros n0. apply writer_run_blocked, B.
  - intros p' s' k Hr. unfold writer_step, errChan_send. cbn in *. rewrite Hr.
    eexists _, _. repeat split.
  - intros b' s' Hcl Hfi. unfold AsynchronousWriter_Write. cbn in *.
    rewrite Hcl, Hfi. reflexivity.
Qed.

Lemma drain_sends_errors_blocking_witness :
  (drain aq = AtSelect /\ ch_buf (queue aq) = [[Byte.x41]] /\ ctx aq && false = false /\
   snd (fst (File_Write (file (aw aq)) [Byte.x41] (set_faults write_fails w0))) = Some EIO) /\
  exists a1,
    writer_step false aq (set_faults write_fails w0)
      = (Done a1, snd (File_Write (file (aw aq)) [Byte.x41] (set_faults write_fails w0))) /\
    drain a1 = AtSend EIO [Byte.x41] /\ pool a1 = pool aq.
Proof.
  assert (H1 : drain aq = AtSelect) by reflexivity.
  assert (H2 : ch_buf (queue aq) = [[Byte.x41]]) by reflexivity.
  assert (H3 : ctx aq && false = false) by reflexivity.
  assert (H4 : snd (fst (File_Write (file (aw aq)) [Byte.x41] (set_faults write_fails w0)))
               = Some EIO) by reflexivity.
  split; [auto|].
  destruct (drain_sends_errors_blocking 8 2 false aq (set_faults write_fails w0)
              [Byte.x41] [] EIO H1 H2 H3 H4) as (a1 & E & D & P & _).
  exists a1. auto.
Defined.

(** C5, as stated, fails. A chunk is in the queue and its write fails;
    nobody receives from the error channel. The goroutine [writer] stands
    at the send and cannot move, a thousand steps later as well, and the
    chunk has not been put back into the pool. *)
Lemma drain_blocks_on_undelivered_error :
  exists a1 s1,
    writer_step false aq (set_faults write_fails w0) = (Done a1, s1) /\
    drain a1 = AtSend EIO [Byte.x41] /\
    readers a1 = 0%nat /\
    writer_step false a1 s1 = (Blocked, s1) /\
    writer_run 1000 a1 s1 = (a1, s1) /\
    pool a1 = [] /\ received a1 = [].
Proof.
  eexists _, _. split; [vm_compute; reflexivity|].
  split; [reflexivity|]. split; [reflexivity|]. split; [reflexivity|].
  split; [by apply writer_run_blocked|]. split; reflexivity.
Qed.

Lemma Write_after_Close_witness :
  closed (snd (fst (AsynchronousWriter_Close aw0 w0))) <> 0 /\
  AsynchronousWriter_Write 8 2 false (snd (fst (AsynchronousWriter_Close aw0 w0)))
    [Byte.x41] (snd (AsynchronousWriter_Close aw0 w0))
  = (Done (0, Some ErrClosed, snd (fst (AsynchronousWriter_Close aw0 w0))),
     snd (AsynchronousWriter_Close aw0 w0)).
Proof.
  split; [vm_compute; discriminate|].
  exact (proj1 (Write_after_Close 8 2 false aw0 [Byte.x41] w0)).
Defined.

(** * Further properties of the code *)

(** ** Writing without rotation *)

Lemma File_Write_appendable h i c b s :
  write_f (faults s) = [] -> appendable s h i c ->
  exists s',
    File_Write (Some h) b s = (Z.of_nat (List.length b), None, s') /\
    appendable s' h i (c ++ b) /\
    faults s' = faults s /\ dir s' = dir s /\
    trace s' = trace s ++ [EvWrite h b None] /\
    inodes s' = <[i := c ++ b]> (inodes s).
Proof.
  intros F (d & D & C & Fl & <- & I).
  rewrite (File_Write_append h d b s F D C Fl). eexists. split; [reflexivity|]. proj.
  rewrite I. simpl. repeat split.
  eexists. split; [apply list_lookup_insert_eq; by eapply lookup_lt_Some|].
  repeat split; try done.
  apply list_lookup_insert_eq. by eapply lookup_lt_Some.
Qed.

Lemma Writer_Write_no_signal w b s :
  fire w = [] ->
  Writer_Write w b s =
    (fst (fst (File_Write (file w) b s)), snd (fst (File_Write (file w) b s)), w,
     snd (File_Write (file w) b s)).
Proof.
  intros Hf. unfold Writer_Write, bind. rewrite Hf.
  by destruct (File_Write (file w) b s) as [[n e] s1].
Qed.

(** X1. With no rotation signal and no failing write, a series of [Write]
    calls on the plain writer puts the payloads at the end of the log
    file in the order of the calls, and each call returns the length of
    its payload and a nil error. *)
Theorem Writer_Writes_append (bs : list bytes) (w : Writer) (s : World)
    (h i : nat) (c : bytes) :
  fire w = [] ->
  file w = Some h ->
  write_f (faults s) = [] ->
  appendable s h i c ->
  dir s !! absPath w = Some i ->
  fst (Writer_Writes w bs s)
    = (map (fun b => (Z.of_nat (List.length b), None)) bs, w) /\
  content (snd (Writer_Writes w bs s)) (absPath w) = Some (c ++ concat bs).
Proof.
  intros Hf Hh. revert s c.
  induction bs as [|b rest IH]; intros s c F A D.
  - simpl. rewrite app_nil_r. split; [done|].
    destruct A as (d & _ & _ & _ & _ & I). unfold content. by rewrite D.
  - cbn [Writer_Writes]. unfold bind. rewrite (Writer_Write_no_signal w b s Hf), Hh.
    destruct (File_Write_appendable h i c b s F A) as (s1 & E & A1 & F1 & D1 & _).
    rewrite E. cbn [fst snd].
    destruct (IH s1 (c ++ b)) as (R1 & R2); [by rewrite F1|exact A1|by rewrite D1|].
    destruct (Writer_Writes w rest s1) as [[rs w'] s2]. cbn [fst snd] in *.
    injection R1 as -> ->. unfold ret. cbn [fst snd concat].
    split; [done|]. by rewrite R2, <- app_assoc.
Qed.

Lemma Writer_Writes_append_witness :
  (fire wr0 = [] /\ file wr0 = Some 0%nat /\ write_f (faults w0) = [] /\
   appendable w0 0 0 [] /\ dir w0 !! absPath wr0 = Some 0%nat) /\
  content (snd (Writer_Writes wr0 [[Byte.x61]; []; [Byte.x62; Byte.x63]] w0)) "app.log"
    = Some [Byte.x61; Byte.x62; Byte.x63].
Proof.
  assert (A : appendable w0 0 0 []).
  { eexists. repeat split; reflexivity. }
  split; [repeat split; exact A|].
  exact (proj2 (Writer_Writes_append [[Byte.x61]; []; [Byte.x62; Byte.x63]] wr0 w0 0 0 []
                  eq_refl eq_refl eq_refl A eq_refl)).
Defined.

(** ** Writing across a rotation *)

Lemma File_Close_keeps_faults f s :
  rename_f (faults (snd (File_Close f s))) = rename_f (faults s) /\
  open_f (faults (snd (File_Close f s))) = open_f (faults s) /\
  write_f (faults (snd (File_Close f s))) = write_f (faults s) /\
  remove_f (faults (snd (File_Close f s))) = remove_f (faults s).
Proof.
  unfold File_Close, bind, get, emit, modify, ret, fault.
  destruct f as [h|]; simpl; [|done].
  destruct (fds s !! h) as [d|]; simpl; [|done].
  destruct (f_closed d); simpl; done.
Qed.

(** A rotation with nothing failing, in full: the old content is under
    the new name, the log file is new and empty, and the writer holds a
    descriptor open for appending to it. *)
Lemma Reopen_rotates w name s i old :
  faults s = no_faults -> dir s !! absPath w = Some i -> inodes s !! i = Some old ->
  rname w name <> absPath w ->
  exists h s',
    Reopen w name s = (None, set_tasks (tasks w ++ [name]) (set_file (Some h) w), s') /\
    faults s' = no_faults /\
    dir s' = <[absPath w := List.length (inodes s)]>
               (<[rname w name := i]> (delete (absPath w) (dir s))) /\
    inodes s' = inodes s ++ [[]] /\
    appendable s' h (List.length (inodes s)) [].
Proof.
  intros F D I Hne. unfold Reopen, bind. fold (rname w name).
  destruct (File_Close_frame (file w) s) as (C1 & C2 & _ & C4). specialize (C4 F).
  destruct (File_Close (file w) s) as [c s0]. simpl in *.
  erewrite os_Rename_ok; [| by rewrite C4 | by rewrite C1]. cbn [is_err].
  unfold Reopen_newfile, bind.
  rewrite os_OpenFile_creates; [| nf C4 | proj; rewrite lookup_insert_ne by done;
                                          rewrite C1; apply lookup_delete_eq].
  step. eexists _, _. split; [reflexivity|]. proj. rewrite C1, C2.
  repeat split; try done.
  eexists. split; [apply lookup_snoc|]. repeat split. apply lookup_snoc.
Qed.

(* A write that rotates first, with nothing failing. *)
Lemma Writer_Write_rotates (w : Writer) (name : string) (rest : list string)
    (b : bytes) (s : World) (i : nat) (old : bytes) :
  fire w = name :: rest ->
  faults s = no_faults ->
  dir s !! absPath w = Some i ->
  inodes s !! i = Some old ->
  rname w name <> absPath w ->
  exists w' s',
    Writer_Write w b s = (Z.of_nat (List.length b), None, w', s') /\
    fire w' = rest /\ tasks w' = tasks w ++ [name] /\
    content s' (rname w name) = Some old /\
    content s' (absPath w) = Some b.
Proof.
  intros Hf F D I Hne. unfold Writer_Write, bind. rewrite Hf.
  destruct (Reopen_rotates (set_fire rest w) name s i old F D I Hne)
    as (h & s1 & E & F1 & D1 & I1 & A1).
  rewrite E. cbn [fst snd set_tasks set_file file].
  destruct (File_Write_appendable h (List.length (inodes s)) [] b s1)
    as (s2 & E2 & A2 & F2 & D2 & _ & I2); [by rewrite F1|exact A1|].
  rewrite E2. unfold ret. cbn [fst snd]. eexists _, _. split; [reflexivity|].
  split; [reflexivity|]. split; [reflexivity|].
  assert (Li : (i < List.length (inodes s))%nat) by (by eapply lookup_lt_Some).
  unfold content. rewrite D2, D1, I2, I1. cbn [absPath set_fire].
  change (rname (set_fire rest w) name) with (rname w name).
  split.
  - rewrite lookup_insert_ne, lookup_insert_eq by done.
    rewrite list_lookup_insert_ne by lia. by rewrite lookup_app_l by lia.
  - rewrite lookup_insert_eq. apply list_lookup_insert_eq. rewrite length_app. simpl. lia.
Qed.

(** X2. A [Write] of the plain writer that meets a rotation signal, with
    nothing failing: the bytes the log file held before are under the
    rotated name (the temporary name when compression is on), the log
    file holds exactly the payload of this call, the call returns the
    length of the payload, and the goroutine for the rotated name is
    started. *)
Theorem Writer_Write_across_rotation (w : Writer) (name : string) (rest : list string)
    (b : bytes) (s : World) (i : nat) (old : bytes) :
  fire w = name :: rest ->
  faults s = no_faults ->
  dir s !! absPath w = Some i ->
  inodes s !! i = Some old ->
  rname w name <> absPath w ->
  exists w' s',
    Writer_Write w b s = (Z.of_nat (List.length b), None, w', s') /\
    fire w' = rest /\ tasks w' = tasks w ++ [name] /\
    content s' (rname w name) = Some old /\
    content s' (absPath w) = Some b.
Proof.
  intros Hf F D I Hne. exact (Writer_Write_rotates w name rest b s i old Hf F D I Hne).
Qed.

Lemma Writer_Write_across_rotation_witness :
  (fire (set_fire ["app.1.log"] wr0) = ["app.1.log"] /\ faults w1 = no_faults /\
   dir w1 !! absPath wr0 = Some 0%nat /\ inodes w1 !! 0%nat = Some [Byte.x61; Byte.x62] /\
   rname wr0 "app.1.log" <> absPath wr0) /\
  exists w' s',
    Writer_Write (set_fire ["app.1.log"] wr0) [Byte.x63] w1 = (1, None, w', s') /\
    content s' "app.1.log" = Some [Byte.x61; Byte.x62] /\
    content s' "app.log" = Some [Byte.x63].
Proof.
  assert (N : rname wr0 "app.1.log" <> absPath wr0) by discriminate.
  split; [repeat split; exact N|].
  destruct (Writer_Write_across_rotation (set_fire ["app.1.log"] wr0) "app.1.log" []
              [Byte.x63] w1 0 [Byte.x61; Byte.x62] eq_refl eq_refl eq_refl eq_refl N)
    as (w' & s' & E & _ & _ & C1 & C2).
  exists w', s'. auto.
Defined.

(** ** The plain writer after [Close], and after a failed re-open *)

(** X3. After a [Close] of the plain writer that returned nil: a [Write]
    that meets no rotation signal returns 0 and [os.ErrClosed] and changes
    nothing; a [Write] that meets a rotation signal (nothing failing)
    rotates, opens the log file anew and writes its payload to it, so the
    closed writer is in use again. *)
Theorem Writer_Write_after_Close (w : Writer) (s s1 : World) (b : bytes) :
  Writer_Close w s = (None, s1) ->
  (fire w = [] -> Writer_Write w b s1 = (0, Some os_ErrClosed, w, s1))
  /\ (forall name rest i old,
        fire w = name :: rest -> faults s1 = no_faults ->
        dir s1 !! absPath w = Some i -> inodes s1 !! i = Some old ->
        rname w name <> absPath w ->
        exists w' s',
          Writer_Write w b s1 = (Z.of_nat (List.length b), None, w', s') /\
          content s' (absPath w) = Some b /\
          content s' (rname w name) = Some old).
Proof.
  intros H. unfold Writer_Close in H. split.
  - intros Hf. rewrite (Writer_Write_no_signal w b s1 Hf).
    by rewrite (File_Write_after_Close _ b _ _ H).
  - intros name rest i old Hf F D I Hne.
    destruct (Writer_Write_rotates w name rest b s1 i old Hf F D I Hne)
      as (w' & s' & E & _ & _ & C1 & C2).
    exists w', s'. auto.
Qed.

Lemma Writer_Write_after_Close_witness :
  Writer_Close wr0 w0 = (None, snd (Writer_Close wr0 w0)) /\
  Writer_Write wr0 [Byte.x61] (snd (Writer_Close wr0 w0))
    = (0, Some os_ErrClosed, wr0, snd (Writer_Close wr0 w0)).
Proof.
  assert (H : Writer_Close wr0 w0 = (None, snd (Writer_Close wr0 w0))) by reflexivity.
  split; [exact H|].
  exact (proj1 (Writer_Write_after_Close wr0 w0 _ [Byte.x61] H) eq_refl).
Defined.

Lemma File_Close_closes h d s :
  fds s !! h = Some d ->
  exists d', fds (snd (File_Close (Some h) s)) !! h = Some d' /\ f_closed d' = true.
Proof.
  intros D. unfold File_Close, bind, get, emit, modify, ret, fault. simpl. rewrite D. simpl.
  destruct (f_closed d) eqn:C; simpl; [eauto|].
  exists (close_fd d). split; [|done].
  apply list_lookup_insert_eq. by eapply lookup_lt_Some.
Qed.

Lemma os_OpenFile_injected path fl s l :
  open_f (faults s) = true :: l ->
  os_OpenFile path fl s =
    (None, Some EIO, set_trace (trace s ++ [EvOpen path fl (Some EIO)])
                       (set_faults (snd (pop SysOpen (faults s))) s)).
Proof.
  intros F. unfold os_OpenFile, bind, get, fault. simpl. rewrite F. reflexivity.
Qed.

(** X4. A [Write] that meets a rotation signal when the rename succeeds
    but the log file cannot be opened again: the writer keeps its closed
    descriptor, so this [Write] returns 0 and [os.ErrClosed]; the log path
    no longer exists; the old content is under the rotated name, for which
    no goroutine is started (it is neither compressed nor queued for
    retention). *)
Theorem Writer_Write_reopen_fails (w : Writer) (name : string) (rest : list string)
    (b : bytes) (s : World) (h i : nat) (d : File) (l : list bool) :
  fire w = name :: rest ->
  file w = Some h ->
  fds s !! h = Some d ->
  rename_f (faults s) = [] ->
  open_f (faults s) = true :: l ->
  dir s !! absPath w = Some i ->
  rname w name <> absPath w ->
  exists s',
    Writer_Write w b s = (0, Some os_ErrClosed, set_fire rest w, s') /\
    dir s' !! absPath w = None /\
    dir s' !! rname w name = Some i /\
    inodes s' = inodes s.
Proof.
  intros Hf Hh Hd Fr Fo D Hne. unfold Writer_Write, bind. rewrite Hf.
  unfold Reopen, bind. cbn [file set_fire absPath cf]. fold (rname w name). rewrite Hh.
  destruct (File_Close_frame (Some h) s) as (C1 & C2 & _ & _).
  destruct (File_Close_keeps_faults (Some h) s) as (K1 & K2 & _).
  destruct (File_Close_closes h d s Hd) as (d' & Hd' & Hc').
  destruct (File_Close (Some h) s) as [c s0]. simpl in C1, C2, K1, K2, Hd'.
  erewrite os_Rename_ok; [| by rewrite K1 | by rewrite C1]. cbn [is_err].
  unfold Reopen_newfile, bind. cbn [absPath set_fire].
  erewrite os_OpenFile_injected; [| proj; rewrite K2; exact Fo]. cbn [fst snd].
  unfold log_Println, emit, modify, ret. cbn [fst snd file set_fire].
  rewrite Hh. erewrite File_Write_closed; [| proj; exact Hd' | exact Hc'].
  eexists. split; [reflexivity|]. proj. rewrite C1, C2.
  split; [|split; [|done]].
  - rewrite lookup_insert_ne by done. apply lookup_delete_eq.
  - apply lookup_insert_eq.
Qed.

Lemma Writer_Write_reopen_fails_witness :
  (fire (set_fire ["app.1.log"] wr0) = ["app.1.log"] /\ file wr0 = Some 0%nat /\
   fds w1 !! 0%nat = Some (new_file 0 DefaultFileFlag) /\
   rename_f (faults (set_faults (open_fails 1) w1)) = [] /\
   open_f (faults (set_faults (open_fails 1) w1)) = [true] /\
   dir w1 !! absPath wr0 = Some 0%nat /\ rname wr0 "app.1.log" <> absPath wr0) /\
  exists s',
    Writer_Write (set_fire ["app.1.log"] wr0) [Byte.x63] (set_faults (open_fails 1) w1)
      = (0, Some os_ErrClosed, wr0, s') /\
    dir s' !! "app.log" = None /\ dir s' !! "app.1.log" = Some 0%nat.
Proof.
  assert (N : rname wr0 "app.1.log" <> absPath wr0) by discriminate.
  split; [repeat split; exact N|].
  destruct (Writer_Write_reopen_fails (set_fire ["app.1.log"] wr0) "app.1.log" []
              [Byte.x63] (set_faults (open_fails 1) w1) 0 0 (new_file 0 DefaultFileFlag) []
              eq_refl eq_refl eq_refl eq_refl eq_refl eq_refl N)
    as (s' & E & D1 & D2 & _).
  exists s'. auto.
Defined.

(** ** The buffered writer *)

(** X5. [Write] of the buffered writer never returns an error: whatever
    the state of the writer and of the files (closed file, failing
    rotation, failing flush), it returns the length of the payload and
    nil, unless [make] panics on a negative capacity. *)
Theorem BufferWriter_Write_never_fails (growslice : Z -> Z -> Z) (w : BufferWriter)
    (b : bytes) (s : World) :
  match fst (BufferWriter_Write growslice w b s) with
  | Done (n, e, w') =>
      n = Z.of_nat (List.length b) /\ e = None /\ cf (bw w') = cf (bw w)
  | Panic => wrap64 (BufferWriterThershould (cf (bw w)) * 2) < 0
  | _ => False
  end.
Proof.
  unfold BufferWriter_Write, bind.
  assert (R : exists r s1,
    (match fire (bw w) with
     | filename :: rest => Reopen (set_fire rest (bw w)) filename
     | [] => ret (None, bw w)
     end) s = (r, s1) /\ fst r = None /\ cf (snd r) = cf (bw w)).
  { destruct (fire (bw w)) as [|f rest].
    - eexists _, _. split; [reflexivity|]. done.
    - pose proof (Reopen_nil (set_fire rest (bw w)) f s) as N.
      destruct (Reopen_frame (set_fire rest (bw w)) f s) as (_ & C & _).
      destruct (Reopen (set_fire rest (bw w)) f s) as [r s1].
      exists r, s1. done. }
  destruct R as (r & s1 & -> & R1 & R2). rewrite R1. cbn [bw buf swaping].
  destruct (_ && _); [|simpl; auto].
  unfold BufferWriter_flush, bind. cbn [bw]. rewrite R2. unfold make_slice.
  destruct (Z.ltb_spec (wrap64 (BufferWriterThershould (cf (bw w)) * 2)) 0); [done|].
  destruct (File_Write _ _ s1). simpl. auto.
Qed.

(** What a series of writes without rotation keeps true: the file and
    the buffer together hold everything accepted so far. *)
Lemma BufferWriter_Writes_inv growslice bs : forall w s h i c,
  fire (bw w) = [] -> file (bw w) = Some h -> swaping w = 0 ->
  0 <= wrap64 (BufferWriterThershould (cf (bw w)) * 2) ->
  write_f (faults s) = [] ->
  appendable s h i c ->
  exists w' s' c',
    BufferWriter_Writes growslice w bs s = (Done w', s') /\
    bw w' = bw w /\ swaping w' = 0 /\
    faults s' = faults s /\ dir s' = dir s /\
    appendable s' h i c' /\
    c' ++ sl_data (buf w') = c ++ sl_data (buf w) ++ concat bs.
Proof.
  induction bs as [|b rest IH]; intros w s h i c Hf Hh Hs Hc F A.
  - exists w, s, c. simpl. rewrite app_nil_r. auto 10.
  - cbn [BufferWriter_Writes]. unfold bind.
    unfold BufferWriter_Write, bind. rewrite Hf. unfold ret at 1. cbn [fst snd bw buf swaping].
    rewrite Hs. cbn [Z.eqb]. rewrite andb_true_r.
    destruct (BufferWriterThershould (cf (bw w)) <? len (append growslice (buf w) b)) eqn:L.
    + unfold BufferWriter_flush, bind. cbn [bw buf]. rewrite (make_slice_ok _ Hc), Hh.
      cbn [append sl_data].
      destruct (File_Write_appendable h i c (sl_data (buf w) ++ b) s F A)
        as (s1 & E & A1 & F1 & D1 & _).
      rewrite E. unfold ret at 1. cbn [snd].
      destruct (IH {| bw := bw w; buf := {| sl_data := [];
                        sl_cap := wrap64 (BufferWriterThershould (cf (bw w)) * 2) |};
                      swaping := 0 |} s1 h i (c ++ sl_data (buf w) ++ b))
        as (w' & s' & c' & E' & B' & S' & F' & D' & A' & Q'); auto; [by rewrite F1|].
      exists w', s', c'. rewrite E'. simpl in Q'. rewrite ?app_nil_r in Q'.
      repeat split; auto; [congruence|congruence|].
      rewrite Q'. cbn [concat]. by rewrite <- !app_assoc.
    + unfold ret at 1. cbn [snd].
      destruct (IH {| bw := bw w; buf := append growslice (buf w) b; swaping := 0 |} s h i c)
        as (w' & s' & c' & E' & B' & S' & F' & D' & A' & Q'); auto.
      exists w', s', c'. rewrite E'. repeat split; auto.
      rewrite Q'. cbn [append sl_data buf concat]. by rewrite <- !app_assoc.
Qed.

(** X6. A series of writes to the buffered writer followed by [Close],
    with no rotation signal and nothing failing: every call succeeds,
    [Close] returns nil, and the log file ends up with what it held, then
    what the buffer held, then the payloads in the order of the calls,
    however the flushes fell. *)
Theorem BufferWriter_Writes_then_Close (growslice : Z -> Z -> Z) (bs : list bytes)
    (w : BufferWriter) (s : World) (h i : nat) (c : bytes) :
  fire (bw w) = [] ->
  file (bw w) = Some h ->
  swaping w = 0 ->
  0 <= wrap64 (BufferWriterThershould (cf (bw w)) * 2) ->
  write_f (faults s) = [] ->
  close_f (faults s) = [] ->
  appendable s h i c ->
  dir s !! absPath (bw w) = Some i ->
  exists w' s',
    BufferWriter_Writes growslice w bs s = (Done w', s') /\
    fst (BufferWriter_Close w' s') = None /\
    content (snd (BufferWriter_Close w' s')) (absPath (bw w))
      = Some (c ++ sl_data (buf w) ++ concat bs).
Proof.
  intros Hf Hh Hs Hc Fw Fc A D.
  destruct (BufferWriter_Writes_inv growslice bs w s h i c Hf Hh Hs Hc Fw A)
    as (w' & s' & c' & E & B & S & F & D' & A' & Q).
  exists w', s'. split; [exact E|].
  unfold BufferWriter_Close, bind. rewrite B, Hh.
  destruct (File_Write_appendable h i c' (sl_data (buf w')) s') as (s1 & E1 & A1 & F1 & D1 & _);
    [by rewrite F|exact A'|].
  rewrite E1. destruct A1 as (d & Hd & Cd & Fl & Hi & I).
  erewrite File_Close_ok; [| by rewrite F1, F | exact Hd | exact Cd].
  proj. split; [done|]. unfold content. proj. rewrite D1, D', D, I. by rewrite Q.
Qed.

Lemma BufferWriter_Writes_then_Close_witness :
  (fire (bw bw0) = [] /\ file (bw bw0) = Some 0%nat /\ swaping bw0 = 0 /\
   0 <= wrap64 (BufferWriterThershould (cf (bw bw0)) * 2) /\
   write_f (faults w0) = [] /\ close_f (faults w0) = [] /\
   appendable w0 0 0 [] /\ dir w0 !! absPath (bw bw0) = Some 0%nat) /\
  exists w' s',
    BufferWriter_Writes toy_growslice bw0 (repeat [Byte.x61] 7) w0 = (Done w', s') /\
    content (snd (BufferWriter_Close w' s')) "app.log" = Some (repeat Byte.x61 7).
Proof.
  assert (A : appendable w0 0 0 []) by (eexists; repeat split; reflexivity).
  assert (H4 : 0 <= wrap64 (BufferWriterThershould (cf (bw bw0)) * 2))
    by (vm_compute; discriminate).
  split; [repeat split; solve [exact A | exact H4]|].
  destruct (BufferWriter_Writes_then_Close toy_growslice (repeat [Byte.x61] 7) bw0 w0 0 0 []
              eq_refl eq_refl eq_refl H4 eq_refl eq_refl A eq_refl)
    as (w' & s' & E & _ & C).
  exists w', s'. auto.
Defined.

Lemma File_Write_error_keeps f b s e :
  snd (fst (File_Write f b s)) = Some e ->
  fst (fst (File_Write f b s)) = 0 /\
  inodes (snd (File_Write f b s)) = inodes s /\
  dir (snd (File_Write f b s)) = dir s.
Proof.
  unfold File_Write, bind, get, emit, modify, ret, fault.
  destruct f as [h|]; simpl; [|done].
  destruct (fds s !! h) as [d|]; simpl; [|done].
  destruct (f_closed d); simpl; [done|].
  destruct (fl_write (f_flag d)); simpl; [|done].
  destruct (hd_fault (write_f (faults s))); simpl; [done|discriminate].
Qed.

(** X7. When the flush inside [Write] fails, for whatever reason (a
    closed or read-only file, a nil file, an error of the system call),
    [Write] still returns the length of the payload and nil; the buffered
    bytes, this payload included, are dropped from the buffer and are in
    no file. *)
Theorem BufferWriter_Write_flush_failure (growslice : Z -> Z -> Z) (w : BufferWriter)
    (b : bytes) (s : World) (e : error) :
  fire (bw w) = [] ->
  swaping w = 0 ->
  BufferWriterThershould (cf (bw w)) < len (append growslice (buf w) b) ->
  0 <= wrap64 (BufferWriterThershould (cf (bw w)) * 2) ->
  snd (fst (File_Write (file (bw w)) (sl_data (buf w) ++ b) s)) = Some e ->
  exists w' s',
    BufferWriter_Write growslice w b s = (Done (Z.of_nat (List.length b), None, w'), s') /\
    sl_data (buf w') = [] /\
    inodes s' = inodes s /\ dir s' = dir s.
Proof.
  intros Hf Hs Hl Hc He.
  rewrite (BufferWriter_Write_flushes growslice w b s Hf Hs Hl Hc).
  destruct (File_Write_error_keeps _ _ _ _ He) as (_ & I & D).
  eexists _, _. split; [reflexivity|]. auto.
Qed.

Lemma BufferWriter_Write_flush_failure_witness :
  (fire (bw bw0) = [] /\ swaping bw0 = 0 /\
   BufferWriterThershould (cf (bw bw0))
     < len (append toy_growslice (buf bw0) (repeat Byte.x41 5)) /\
   0 <= wrap64 (BufferWriterThershould (cf (bw bw0)) * 2) /\
   snd (fst (File_Write (file (bw bw0)) (sl_data (buf bw0) ++ repeat Byte.x41 5)
               (set_faults write_fails w0))) = Some EIO) /\
  exists w' s',
    BufferWriter_Write toy_growslice bw0 (repeat Byte.x41 5) (set_faults write_fails w0)
      = (Done (5, None, w'), s') /\
    sl_data (buf w') = [] /\ inodes s' = inodes w0.
Proof.
  assert (H4 : 0 <= wrap64 (BufferWriterThershould (cf (bw bw0)) * 2))
    by (vm_compute; discriminate).
  split; [repeat split; exact H4|].
  destruct (BufferWriter_Write_flush_failure toy_growslice bw0 (repeat Byte.x41 5)
              (set_faults write_fails w0) EIO eq_refl eq_refl eq_refl H4 eq_refl)
    as (w' & s' & E & B & I & _).
  exists w', s'. auto.
Defined.

(** X8. Two goroutines in [Write] on one buffered writer, the second
    reading the buffer before the first has stored its append: both calls
    run to their end without a flush, and the buffer holds the payload of
    the second call only; the payload of the first is lost. *)
Theorem BufferWriter_concurrent_append_lost (growslice : Z -> Z -> Z) (w : BufferWriter)
    (b0 b1 : bytes) (s : World) :
  len (append growslice (buf w) b1) <= BufferWriterThershould (cf (bw w)) ->
  let st := fst (bw_run growslice
                   [(0%nat, b0); (1%nat, b1); (0%nat, []); (1%nat, []); (0%nat, []); (1%nat, [])]
                   {| sh_w := w; sh_pcs := [BwIdle; BwIdle] |} s) in
  sh_pcs st = [BwIdle; BwIdle] /\
  sl_data (buf (sh_w st)) = sl_data (buf w) ++ b1 /\
  snd (bw_run growslice
         [(0%nat, b0); (1%nat, b1); (0%nat, []); (1%nat, []); (0%nat, []); (1%nat, [])]
         {| sh_w := w; sh_pcs := [BwIdle; BwIdle] |} s) = s.
Proof.
  intros H. apply Z.ltb_ge in H.
  cbn [bw_run]. unfold bw_step, bind, ret. cbn.
  change (len {| sl_data := sl_data (buf w) ++ b1;
                 sl_cap := if Z.of_nat (List.length (sl_data (buf w) ++ b1)) <=? sl_cap (buf w)
                           then sl_cap (buf w)
                           else growslice (sl_cap (buf w))
                                  (Z.of_nat (List.length (sl_data (buf w) ++ b1))) |})
    with (len (append growslice (buf w) b1)).
  rewrite H. cbn. rewrite H. cbn. auto.
Qed.

Lemma BufferWriter_concurrent_append_lost_witness :
  len (append toy_growslice (buf bw0) [Byte.x62]) <= BufferWriterThershould (cf (bw bw0)) /\
  sl_data (buf (sh_w (fst (bw_run toy_growslice
     [(0%nat, [Byte.x61]); (1%nat, [Byte.x62]); (0%nat, []); (1%nat, []); (0%nat, []); (1%nat, [])]
     {| sh_w := bw0; sh_pcs := [BwIdle; BwIdle] |} w0)))) = [Byte.x62].
Proof.
  assert (H : len (append toy_growslice (buf bw0) [Byte.x62])
              <= BufferWriterThershould (cf (bw bw0))) by (vm_compute; discriminate).
  split; [exact H|].
  exact (proj1 (proj2 (BufferWriter_concurrent_append_lost toy_growslice bw0
                         [Byte.x61] [Byte.x62] w0 H))).
Defined.

(** ** The asynchronous writer: what reaches the file *)

(** X9. The goroutine [writer], left to run with nothing failing, writes
    the chunks of the queue to the file in the order they were queued,
    two steps for each, and puts each chunk back into the pool; it ends at
    its [select] with the queue empty. *)
Theorem writer_drains_in_order (q : list bytes) (a : AsynchronousWriter) (s : World)
    (h i : nat) (c : bytes) :
  drain a = AtSelect ->
  ctx a = false ->
  file (aw a) = Some h ->
  ch_buf (queue a) = q ->
  write_f (faults s) = [] ->
  appendable s h i c ->
  exists a' s',
    writer_run (2 * List.length q) a s = (a', s') /\
    ch_buf (queue a') = [] /\ drain a' = AtSelect /\
    pool a' = rev (map (@List.length Byte.byte) q) ++ pool a /\
    received a' = received a /\
    appendable s' h i (c ++ concat q) /\
    dir s' = dir s.
Proof.
  revert a s c. induction q as [|b rest IH]; intros a s c Hd Hc Hh Hq F A.
  - exists a, s. simpl. rewrite app_nil_r. auto 10.
  - replace (2 * List.length (b :: rest))%nat with (S (S (2 * List.length rest))) by (simpl; lia).
    cbn [writer_run]. unfold bind.
    unfold writer_step at 1. rewrite Hd, Hq, Hc. cbn [andb]. unfold bind. cbn [aw set_queue].
    rewrite Hh.
    destruct (File_Write_appendable h i c b s F A) as (s1 & E & A1 & F1 & D1 & _).
    rewrite E. cbn [fst snd]. unfold ret at 1.
    unfold writer_step at 1. cbn [drain set_drain]. unfold ret at 1.
    match goal with |- context [writer_run _ ?x s1] =>
      destruct (IH x s1 (c ++ b)) as (a' & s' & E' & Q' & D' & P' & R' & A' & Di')
    end; try done; [by rewrite F1|].
    exists a', s'. rewrite E'. repeat split; try done.
    + rewrite P'. cbn. by rewrite <- app_assoc.
    + cbn [concat]. by rewrite app_assoc.
    + congruence.
Qed.

Lemma writer_drains_in_order_witness :
  (drain aq2 = AtSelect /\ ctx aq2 = false /\ file (aw aq2) = Some 0%nat /\
   ch_buf (queue aq2) = [[Byte.x41]; [Byte.x42]] /\ write_f (faults w0) = [] /\
   appendable w0 0 0 []) /\
  exists a' s',
    writer_run 4 aq2 w0 = (a', s') /\ ch_buf (queue a') = [] /\
    appendable s' 0 0 [Byte.x41; Byte.x42].
Proof.
  assert (A : appendable w0 0 0 []) by (eexists; repeat split; reflexivity).
  split; [repeat split; exact A|].
  destruct (writer_drains_in_order [[Byte.x41]; [Byte.x42]] aq2 w0 0 0 []
              eq_refl eq_refl eq_refl eq_refl eq_refl A)
    as (a' & s' & E & Q & _ & _ & _ & A' & _).
  exists a', s'. auto.
Defined.









(** ** The asynchronous writer: the payload of a rotating [Write] *)

Lemma chunks_sound BufferSize fuel : forall b a a',
  chunks BufferSize fuel b a = Done a' ->
  exists cs,
    ch_buf (queue a') = ch_buf (queue a) ++ cs /\ concat cs = b /\
    ch_cap (queue a') = ch_cap (queue a) /\
    aw a' = aw a /\ closed a' = closed a /\ drain a' = drain a /\
    (List.length (ch_buf (queue a')) <= Nat.max (List.length (ch_buf (queue a))) (ch_cap (queue a)))%nat.
Proof.
  induction fuel as [|fuel IH]; intros b a a' H.
  - destruct b; simpl in H; [|discriminate]. inversion H; subst.
    exists []. rewrite app_nil_r. repeat split; try done. lia.
  - destruct b as [|x b]; cbn [chunks] in H.
    { inversion H; subst. exists []. rewrite app_nil_r. repeat split; try done. lia. }
    destruct (pool_Get BufferSize a) as [l a1] eqn:G.
    assert (P : queue a1 = queue a /\ aw a1 = aw a /\ closed a1 = closed a /\ drain a1 = drain a).
    { unfold pool_Get in G. destruct (pool a); inversion G; subst; done. }
    destruct P as (P1 & P2 & P3 & P4).
    unfold try_send in H. rewrite P1 in H.
    destruct (Nat.ltb_spec (List.length (ch_buf (queue a))) (ch_cap (queue a))) as [L|L];
      [|discriminate].
    apply IH in H as (cs & Q & C & K & W & Cl & Dr & B).
    cbn [queue set_queue ch_buf ch_cap aw closed drain] in *.
    exists (take (Nat.min l (List.length (x :: b))) (x :: b) :: cs).
    rewrite Q, <- app_assoc. cbn [concat]. rewrite C, take_drop.
    repeat split; try congruence.
    rewrite length_app in B. simpl in B. rewrite Q in B. rewrite ?length_app in *. simpl in *. lia.
Qed.

Lemma chunks_terminates BufferSize fuel : forall b a,
  (0 < BufferSize)%nat -> Forall (fun n => (0 < n)%nat) (pool a) ->
  (List.length (ch_buf (queue a)) + List.length b <= ch_cap (queue a))%nat ->
  (List.length b <= fuel)%nat ->
  exists a', chunks BufferSize fuel b a = Done a'.
Proof.
  induction fuel as [|fuel IH]; intros b a HB HP HR HF.
  - destruct b; simpl in *; [eauto|lia].
  - destruct b as [|x b]; cbn [chunks]; [eauto|].
    destruct (pool_Get BufferSize a) as [l a1] eqn:G.
    assert (P : queue a1 = queue a /\ (0 < l)%nat /\ Forall (fun n => (0 < n)%nat) (pool a1)).
    { unfold pool_Get in G. destruct (pool a) as [|n p] eqn:Ep; inversion G; subst.
      - rewrite Ep. done.
      - apply Forall_cons in HP as (H1 & H2). done. }
    destruct P as (P1 & P2 & P3).
    unfold try_send. rewrite P1.
    destruct (Nat.ltb_spec (List.length (ch_buf (queue a))) (ch_cap (queue a))) as [L|L];
      [|simpl in HR; lia].
    apply IH; cbn [queue set_queue ch_buf ch_cap pool]; try done.
    + rewrite length_app, length_drop. simpl in *. lia.
    + rewrite length_drop. simpl in *. lia.
Qed.

(** X12. A [Write] of the asynchronous writer that meets a rotation
    signal (no pending error, pooled slices of positive length, room in
    the queue): after the rotation the payload is cut into chunks that are
    queued in order after what was queued before; the chunks put together
    are the payload, and the call returns its length. *)
Theorem AsynchronousWriter_Write_rotating (BufferSize fuel : nat) (pick : bool)
    (a : AsynchronousWriter) (name : string) (rest : list string) (b : bytes) (s : World) :
  closed a = 0 ->
  fire (aw a) = name :: rest ->
  no_error_pending a ->
  (0 < BufferSize)%nat ->
  Forall (fun n => (0 < n)%nat) (pool a) ->
  (List.length (ch_buf (queue a)) + List.length b <= ch_cap (queue a))%nat ->
  (List.length b <= fuel)%nat ->
  exists a' cs,
    AsynchronousWriter_Write BufferSize fuel pick a b s =
      (Done (Z.of_nat (List.length b), None, a'),
       snd (Reopen (set_fire rest (aw a)) name s)) /\
    aw a' = snd (fst (Reopen (set_fire rest (aw a)) name s)) /\
    ch_buf (queue a') = ch_buf (queue a) ++ cs /\
    concat cs = b.
Proof.
  intros Hc Hf Hn HB HP HR HF.
  assert (G : forall w1, exists a' cs,
            chunks BufferSize fuel b (set_aw w1 a) = Done a' /\ aw a' = w1 /\
            ch_buf (queue a') = ch_buf (queue a) ++ cs /\ concat cs = b).
  { intros w1.
    destruct (chunks_terminates BufferSize fuel b (set_aw w1 a) HB HP HR HF) as (a' & E).
    destruct (chunks_sound BufferSize fuel b (set_aw w1 a) a' E) as (cs & Q & C & _ & W & _).
    exists a', cs. auto. }
  unfold AsynchronousWriter_Write, bind. rewrite Hc, Hf. cbn [Z.eqb]. cbv zeta.
  pose proof (Reopen_nil (set_fire rest (aw a)) name s) as N.
  destruct (drain a) eqn:Dr; try (by destruct (Hn _ _ Dr)); cbv beta;
    destruct (Reopen (set_fire rest (aw a)) name s) as [[e w1] s1]; cbn [fst snd] in *;
    subst e; destruct (G w1) as (a' & cs & E & W & Q & C); exists a', cs;
    rewrite E; auto.
Qed.

Lemma AsynchronousWriter_Write_rotating_witness :
  (closed aw0 = 0 /\ fire (aw (set_aw (set_fire ["app.1.log"] wr0) aw0)) = ["app.1.log"] /\
   no_error_pending (set_aw (set_fire ["app.1.log"] wr0) aw0) /\ (0 < 2)%nat /\
   Forall (fun n => (0 < n)%nat) (pool aw0) /\
   (List.length (ch_buf (queue aw0)) + 3 <= ch_cap (queue aw0))%nat /\ (3 <= 3)%nat) /\
  exists a',
    fst (AsynchronousWriter_Write 2 3 false (set_aw (set_fire ["app.1.log"] wr0) aw0)
           [Byte.x61; Byte.x62; Byte.x63] w0) = Done (3, None, a') /\
    concat (ch_buf (queue a')) = [Byte.x61; Byte.x62; Byte.x63].
Proof.
  assert (N : no_error_pending (set_aw (set_fire ["app.1.log"] wr0) aw0))
    by (intros e c; discriminate).
  assert (P : Forall (fun n => (0 < n)%nat) (pool aw0)) by constructor.
  assert (L : (List.length (ch_buf (queue aw0)) + 3 <= ch_cap (queue aw0))%nat) by (simpl; lia).
  split; [repeat split; solve [exact N | exact P | exact L | lia]|].
  destruct (AsynchronousWriter_Write_rotating 2 3 false (set_aw (set_fire ["app.1.log"] wr0) aw0)
              "app.1.log" [] [Byte.x61; Byte.x62; Byte.x63] w0
              eq_refl eq_refl N (Nat.lt_0_succ 1) P L (Nat.le_refl 3))
    as (a' & cs & E & _ & Q & C).
  exists a'. split; [by rewrite E|]. rewrite Q. exact C.
Defined.

(** ** The asynchronous writer: a failed chunk at [Close] *)

(** X13. [Close] of the asynchronous writer when the write of the first
    queued chunk fails and nobody is receiving from the error channel:
    the flush stops there; the chunks queued behind it stay in the queue
    and are never written, the error is dropped, and [Close] returns what
    closing the file returns. *)
Theorem AsynchronousWriter_Close_stops_at_failure (a : AsynchronousWriter) (s : World)
    (b1 : bytes) (rest : list bytes) (e : error) :
  closed a = 0 ->
  ch_buf (queue a) = b1 :: rest ->
  readers a = 0%nat ->
  snd (fst (File_Write (file (aw a)) b1 s)) = Some e ->
  exists a' s',
    AsynchronousWriter_Close a s =
      (fst (File_Close (file (aw a)) (snd (File_Write (file (aw a)) b1 s))), a', s') /\
    ch_buf (queue a') = rest /\
    inodes s' = inodes s /\
    received a' = received a /\
    pool a' = List.length b1 :: pool a.
Proof.
  intros Hc Hq Hr He. unfold AsynchronousWriter_Close, bind. rewrite Hc. cbn [Z.eqb].
  cbn [queue set_ctx set_closed]. rewrite Hq. cbn [onClose]. unfold bind.
  cbn [aw set_queue set_ctx set_closed].
  destruct (File_Write_error_keeps _ _ _ _ He) as (_ & I & _).
  destruct (File_Write (file (aw a)) b1 s) as [[n e'] s1]. cbn [fst snd] in *. subst e'.
  unfold errChan_send. cbn [readers set_queue set_ctx set_closed]. rewrite Hr.
  unfold ret at 1. cbn [aw pool_Put set_pool set_queue set_ctx set_closed].
  destruct (File_Close_frame (file (aw a)) s1) as (_ & I2 & _).
  destruct (File_Close (file (aw a)) s1) as [r s2]. cbn [fst snd] in *.
  eexists _, _. split; [reflexivity|]. repeat split. congruence.
Qed.

Lemma AsynchronousWriter_Close_stops_at_failure_witness :
  (closed aq2 = 0 /\ ch_buf (queue aq2) = [[Byte.x41]; [Byte.x42]] /\ readers aq2 = 0%nat /\
   snd (fst (File_Write (file (aw aq2)) [Byte.x41] (set_faults write_fails w0))) = Some EIO) /\
  exists a' s',
    AsynchronousWriter_Close aq2 (set_faults write_fails w0) = (None, a', s') /\
    ch_buf (queue a') = [[Byte.x42]] /\ inodes s' = inodes w0.
Proof.
  split; [repeat split|].
  destruct (AsynchronousWriter_Close_stops_at_failure aq2 (set_faults write_fails w0)
              [Byte.x41] [[Byte.x42]] EIO eq_refl eq_refl eq_refl eq_refl)
    as (a' & s' & E & Q & I & _).
  exists a', s'. auto.
Defined.

(** ** Retention when a removal fails *)

(** X14. [DoRemove] takes the oldest name out of the queue whether or not
    the removal of its file succeeds. In the goroutine of a rotation that
    meets a full queue, a failed removal is logged, the new name is queued
    all the same, and the file that could not be removed stays on disk
    with its name no longer in the queue. *)
Theorem DoRemove_forgets_failed_removal (w : Writer) (s : World) (cap n i : nat)
    (x name : string) (q : list string) (e : error) :
  rollingfilech w = Some {| ch_cap := cap; ch_buf := x :: q |} ->
  List.length (x :: q) = cap ->
  fst (os_Remove x s) = Some e ->
  dir s !! x = Some i ->
  DoRemove w s = (Done (with_queue cap q w), after_remove x s) /\
  retry (S (S n)) w name s = (Done (with_queue cap (q ++ [name]) w), after_remove x s) /\
  dir (after_remove x s) !! x = Some i /\
  trace (after_remove x s)
    = trace s ++ [EvRemove x (Some e); EvLog "error in remove log file" e].
Proof.
  intros Hq Hl He Hd.
  assert (A : dir (after_remove x s) !! x = Some i /\
              trace (after_remove x s)
              = trace s ++ [EvRemove x (Some e); EvLog "error in remove log file" e]).
  { unfold after_remove. pose proof (os_Remove_adds x s) as T. unfold adds in T.
    revert He T. unfold os_Remove, bind, get, emit, modify, ret, fault. simpl.
    destruct (hd_fault (remove_f (faults s))); simpl.
    - intros [= <-] _. rewrite <- app_assoc. done.
    - rewrite Hd. discriminate. }
  destruct A as (A1 & A2).
  split; [|split; [|split; [exact A1|exact A2]]].
  - unfold DoRemove, bind, try_recv, after_remove, with_queue. rewrite Hq. cbn [ch_buf ch_cap].
    destruct (os_Remove x s) as [r s1]. cbn [fst] in He. subst r.
    by destruct (log_Println "error in remove log file" e s1).
  - assert (Hc : (0 < cap)%nat) by (rewrite <- Hl; simpl; lia).
    rewrite (retry_spec n cap (x :: q) w name s); [| exact Hc | lia | exact Hq].
    unfold push, evicted. rewrite Hl, Nat.ltb_irrefl. reflexivity.
Qed.

Lemma DoRemove_forgets_failed_removal_witness :
  (rollingfilech wfull = Some {| ch_cap := 2; ch_buf := ["a.log"; "b.log"] |} /\
   fst (os_Remove "a.log" (set_faults remove_fails wkept)) = Some EIO /\
   dir wkept !! "a.log" = Some 1%nat) /\
  dir (after_remove "a.log" (set_faults remove_fails wkept)) !! "a.log" = Some 1%nat /\
  fst (retry 2 wfull "c.log" (set_faults remove_fails wkept))
    = Done (with_queue 2 ["b.log"; "c.log"] wfull).
Proof.
  split; [repeat split|].
  destruct (DoRemove_forgets_failed_removal wfull (set_faults remove_fails wkept) 2 0 1
              "a.log" "c.log" ["b.log"] EIO eq_refl eq_refl eq_refl eq_refl)
    as (_ & R & D & _).
  split; [exact D|]. by rewrite R.
Defined.

(** ** Construction *)

Section Construction_properties.

Variable LogFilePath : Options -> string.
Variable NewManager : Options -> list string * option error.
Variable os_MkdirAll : string -> M (option error).
Variable QueueSize : nat.

Local Abbreviation New := (NewWriterFromConfig LogFilePath NewManager os_MkdirAll QueueSize).

(** X15. [NewWriterFromConfig] refuses a configuration with an empty log
    directory or an empty file name with [ErrInvalidArgument], before it
    makes a directory, opens a file or starts the manager: the world is
    as it was. *)
Theorem NewWriterFromConfig_rejects_empty (c : Options) (pool0 : list nat) (s : World) :
  LogPath c = "" \/ FileName c = "" ->
  New c pool0 s = (Done (None, Some ErrInvalidArgument), s).
Proof.
  intros [H|H]; unfold NewWriterFromConfig; rewrite H; cbn [String.eqb orb].
  - reflexivity.
  - by rewrite orb_true_r.
Qed.

Lemma New_opens (c : Options) (pool0 : list nat) (s s1 : World) :
  LogPath c <> "" -> FileName c <> "" ->
  os_MkdirAll (LogPath c) s = (None, s1) ->
  open_f (faults s1) = [] ->
  exists s2 h i,
    os_OpenFile (LogFilePath c) DefaultFileFlag s1 = (Some h, None, s2) /\
    h = List.length (fds s1) /\
    dir s2 !! LogFilePath c = Some i /\
    ((forall j, dir s1 !! LogFilePath c = Some j -> is_Some (inodes s1 !! j)) ->
     appendable s2 h i (default [] (content s1 (LogFilePath c)))) /\
    (exists d, fds s2 !! h = Some d /\ f_closed d = false).
Proof.
  intros H1 H2 Mk Fo. rewrite (os_OpenFile_default _ _ Fo).
  eexists _, _, _. split; [reflexivity|]. split; [reflexivity|]. proj.
  split; [apply lookup_insert_eq|]. split.
  - intros Wf. eexists. split; [apply lookup_snoc|]. repeat split.
    unfold content. destruct (dir s1 !! LogFilePath c) as [j|] eqn:D; simpl.
    + destruct (Wf j eq_refl) as (x & Hx). by rewrite Hx.
    + apply lookup_snoc.
  - eexists. split; [apply lookup_snoc|]. reflexivity.
Qed.

(** X16. When [NewManager] fails, or the writer mode is none of "none",
    "lock", "async" and "buffer", [NewWriterFromConfig] returns an error
    after it has created and opened the log file: the file exists and its
    descriptor is left open, held by nothing. *)
Theorem NewWriterFromConfig_leaves_file_open (c : Options) (pool0 : list nat) (s s1 : World) :
  LogPath c <> "" ->
  FileName c <> "" ->
  os_MkdirAll (LogPath c) s = (None, s1) ->
  open_f (faults s1) = [] ->
  is_Some (snd (NewManager c)) \/ ~ known_mode (WriterMode c) ->
  exists err s2 d,
    New c pool0 s = (Done (None, Some err), s2) /\
    is_Some (dir s2 !! LogFilePath c) /\
    fds s2 !! List.length (fds s1) = Some d /\ f_closed d = false.
Proof.
  intros H1 H2 Mk Fo H.
  destruct (New_opens c pool0 s s1 H1 H2 Mk Fo) as (s2 & h & i & E & -> & D & _ & d & Hd & Cd).
  unfold NewWriterFromConfig, bind.
  apply String.eqb_neq in H1, H2. rewrite H1, H2. cbn [orb].
  rewrite Mk, E. cbn [fst snd].
  destruct (snd (NewManager c)) as [e|] eqn:M.
  - exists e, s2, d. eauto.
  - destruct H as [[x Hx]|H]; [discriminate|].
    unfold known_mode in H.
    destruct (String.eqb_spec (WriterMode c) "none"); [tauto|].
    destruct (String.eqb_spec (WriterMode c) "lock"); [tauto|].
    destruct (String.eqb_spec (WriterMode c) "async"); [tauto|].
    destruct (String.eqb_spec (WriterMode c) "buffer"); [tauto|].
    exists ErrInvalidArgument, s2, d. eauto.
Qed.

(** X17. With a known mode and nothing failing, [NewWriterFromConfig]
    returns a writer whose base writer holds a descriptor open for
    appending to the log file at [LogFilePath], content kept if the file
    existed; its retention queue is the channel of capacity [MaxRemain]
    when that is positive and nil otherwise, and no goroutine of a
    rotation is pending. The locked writer starts unlocked, the
    asynchronous one open with an empty queue, the buffered one with an
    empty buffer and the flag at 0. *)
Theorem NewWriterFromConfig_succeeds (c : Options) (pool0 : list nat) (s s1 : World) :
  LogPath c <> "" ->
  FileName c <> "" ->
  os_MkdirAll (LogPath c) s = (None, s1) ->
  open_f (faults s1) = [] ->
  (forall j, dir s1 !! LogFilePath c = Some j -> is_Some (inodes s1 !! j)) ->
  snd (NewManager c) = None ->
  known_mode (WriterMode c) ->
  0 <= wrap64 (BufferWriterThershould (conf c) * 2) ->
  exists rw s2 h i,
    New c pool0 s = (Done (Some rw, None), s2) /\
    file (base_writer rw) = Some h /\
    absPath (base_writer rw) = LogFilePath c /\
    cf (base_writer rw) = conf c /\
    fire (base_writer rw) = fst (NewManager c) /\
    rollingfilech (base_writer rw) = new_rollingfilech (conf c) /\
    tasks (base_writer rw) = [] /\
    dir s2 !! LogFilePath c = Some i /\
    appendable s2 h i (default [] (content s1 (LogFilePath c))) /\
    match rw with
    | Plain _ => WriterMode c = "none"
    | Locked l => WriterMode c = "lock" /\ mu l = false
    | Asynchronous a =>
        WriterMode c = "async" /\ closed a = 0 /\ ctx a = false /\
        queue a = make_chan QueueSize /\ drain a = AtSelect
    | Buffered b =>
        WriterMode c = "buffer" /\ swaping b = 0 /\
        buf b = {| sl_data := []; sl_cap := wrap64 (BufferWriterThershould (conf c) * 2) |}
    end.
Proof.
  intros H1 H2 Mk Fo Wf M K Hc.
  destruct (New_opens c pool0 s s1 H1 H2 Mk Fo) as (s2 & h & i & E & _ & D & A & _).
  specialize (A Wf).
  unfold NewWriterFromConfig, bind.
  apply String.eqb_neq in H1, H2. rewrite H1, H2. cbn [orb].
  rewrite Mk, E. cbn [fst snd]. rewrite M.
  assert (Q : forall w0 : Writer, rollingfilech w0 = None ->
            rollingfilech (if 0 <? MaxRemain (conf c)
                           then set_rollingfilech
                                  (Some (make_chan (Z.to_nat (MaxRemain (conf c))))) w0
                           else w0) = new_rollingfilech (conf c)).
  { intros w0 Hw. unfold new_rollingfilech. by destruct (0 <? MaxRemain (conf c)). }
  set (wr := {| file := Some h; absPath := LogFilePath c; fire := fst (NewManager c);
                cf := conf c; rollingfilech := None; tasks := [] |}).
  specialize (Q wr eq_refl).
  set (wq := if 0 <? MaxRemain (conf c) then _ else wr) in *.
  assert (P : file wq = Some h /\ absPath wq = LogFilePath c /\ cf wq = conf c /\
              fire wq = fst (NewManager c) /\ tasks wq = []).
  { subst wq. by destruct (0 <? MaxRemain (conf c)). }
  destruct P as (P1 & P2 & P3 & P4 & P5).
  destruct K as [K|[K|[K|K]]]; rewrite K; cbn [String.eqb Ascii.eqb Bool.eqb];
    try rewrite (make_slice_ok _ Hc); unfold ret;
    eexists _, s2, h, i; (split; [reflexivity|]); cbn [base_writer lw aw bw];
    repeat split; assumption.
Qed.

End Construction_properties.

Lemma NewWriterFromConfig_rejects_empty_witness :
  FileName {| LogPath := "log"; FileName := ""; WriterMode := "none"; RollingPolicy := 1;
              conf := cfg0 |} = "" /\
  NewWriterFromConfig toy_LogFilePath toy_NewManager toy_MkdirAll 2
    {| LogPath := "log"; FileName := ""; WriterMode := "none"; RollingPolicy := 1;
       conf := cfg0 |} [] w0
  = (Done (None, Some ErrInvalidArgument), w0).
Proof.
  split; [reflexivity|].
  apply (NewWriterFromConfig_rejects_empty toy_LogFilePath toy_NewManager toy_MkdirAll 2).
  right. reflexivity.
Defined.

Lemma NewWriterFromConfig_leaves_file_open_witness :
  ~ known_mode (WriterMode (opts0 "fast")) /\
  exists err s2 d,
    NewWriterFromConfig toy_LogFilePath toy_NewManager toy_MkdirAll 2 (opts0 "fast") [] w0
      = (Done (None, Some err), s2) /\
    is_Some (dir s2 !! toy_LogFilePath (opts0 "fast")) /\
    fds s2 !! 1%nat = Some d /\ f_closed d = false.
Proof.
  assert (K : ~ known_mode (WriterMode (opts0 "fast")))
    by (intros [K|[K|[K|K]]]; discriminate K).
  split; [exact K|].
  apply (NewWriterFromConfig_leaves_file_open toy_LogFilePath toy_NewManager toy_MkdirAll 2
           (opts0 "fast") [] w0 w0); [discriminate | discriminate | reflexivity | reflexivity |].
  right. exact K.
Defined.

Lemma NewWriterFromConfig_succeeds_witness :
  known_mode (WriterMode (opts0 "buffer")) /\
  exists rw s2 h i,
    NewWriterFromConfig toy_LogFilePath toy_NewManager toy_MkdirAll 2 (opts0 "buffer") [] w0
      = (Done (Some rw, None), s2) /\
    file (base_writer rw) = Some h /\
    rollingfilech (base_writer rw) = new_rollingfilech cfg0 /\
    appendable s2 h i [].
Proof.
  assert (K : known_mode (WriterMode (opts0 "buffer"))) by (right; right; right; reflexivity).
  split; [exact K|].
  destruct (NewWriterFromConfig_succeeds toy_LogFilePath toy_NewManager toy_MkdirAll 2
              (opts0 "buffer") [] w0 w0)
    as (rw & s2 & h & i & E & F & _ & _ & _ & R & _ & _ & A & _);
    [discriminate | discriminate | reflexivity | reflexivity
    | intros j Hj; vm_compute in Hj; discriminate Hj | reflexivity | exact K
    | vm_compute; discriminate |].
  exists rw, s2, h, i. auto.
Defined.

(** X18. The check [NewWriterFromConfig] leaves to a goroutine: under the
    time policy, when the log file was last modified on an earlier day
    and no file has the name the manager generates, that name is sent as
    a rotation signal; nothing is sent when the file was modified today,
    when a file of that name exists, or under another policy. *)
Theorem startup_signal_fires_on_earlier_day (TimeRolling : Z)
    (GenLogFileName : Options -> string) (c : Options) (mtime now : Z * Z * Z)
    (s : World) :
  (RollingPolicy c = TimeRolling -> date_lt mtime now ->
   dir s !! GenLogFileName c = None ->
   startup_signal TimeRolling GenLogFileName c mtime now s = Some (GenLogFileName c))
  /\ (mtime = now \/ RollingPolicy c <> TimeRolling \/ is_Some (dir s !! GenLogFileName c) ->
      startup_signal TimeRolling GenLogFileName c mtime now s = None).
Proof.
  unfold startup_signal, date_lt. destruct mtime as [[y m] d], now as [[ny nm] nd]. split.
  - intros -> L ->. rewrite Z.eqb_refl.
    assert (Hb : (d <? nd) || (m <? nm) || (y <? ny) = true).
    { rewrite !orb_true_iff, !Z.ltb_lt. lia. }
    by rewrite Hb.
  - intros [H|[H|[x H]]].
    + injection H as -> -> ->. rewrite !Z.ltb_irrefl. cbn [orb].
      by destruct (RollingPolicy c =? TimeRolling).
    + apply Z.eqb_neq in H. by rewrite H.
    + rewrite H. destruct (RollingPolicy c =? TimeRolling); [|done].
      by destruct ((d <? nd) || (m <? nm) || (y <? ny)).
Qed.

Lemma startup_signal_fires_on_earlier_day_witness :
  date_lt (2024, 12, 31) (2025, 1, 1) /\
  startup_signal 1 (fun c => (FileName c ++ ".20241231.log")%string) (opts0 "none")
    (2024, 12, 31) (2025, 1, 1) w0 = Some "app.20241231.log".
Proof.
  assert (L : date_lt (2024, 12, 31) (2025, 1, 1)) by (left; lia).
  split; [exact L|].
  exact (proj1 (startup_signal_fires_on_earlier_day 1
                  (fun c => (FileName c ++ ".20241231.log")%string) (opts0 "none")
                  (2024, 12, 31) (2025, 1, 1) w0) eq_refl L eq_refl).
Defined.

(** ** The locked writer *)

(** X19. [Write] of the locked writer, entered with the mutex free, does
    what [Write] of the plain writer does on the writer inside it (same
    count, same error, same files) and has released the mutex when it
    returns, also when the write failed; entered with the mutex held, it
    waits and changes nothing. *)
Theorem LockedWriter_Write_unlocks (w : LockedWriter) (b : bytes) (s : World) :
  (mu w = false ->
   exists n e w' s',
     LockedWriter_Write w b s = (Done (n, e, w'), s') /\
     mu w' = false /\
     Writer_Write (lw w) b s = (n, e, lw w', s'))
  /\ (mu w = true -> LockedWriter_Write w b s = (Blocked, s)).
Proof.
  unfold LockedWriter_Write, Writer_Write, bind, ret. split; intros ->; [|reflexivity].
  destruct (fire (lw w)) as [|name rest].
  - destruct (File_Write (file (lw w)) b s) as [[n e] s'] eqn:E.
    exists n, e, {| lw := lw w; mu := false |}, s'. auto.
  - destruct (Reopen (set_fire rest (lw w)) name s) as [[e w1] s1] eqn:E. cbn [fst snd].
    destruct e as [err|].
    + exists 0, (Some err), {| lw := w1; mu := false |}, s1. auto.
    + destruct (File_Write (file w1) b s1) as [[n e] s'] eqn:E'.
      exists n, e, {| lw := w1; mu := false |}, s'. auto.
Qed.

Lemma LockedWriter_Write_unlocks_witness :
  mu {| lw := wr0; mu := false |} = false /\
  exists n e w' s',
    LockedWriter_Write {| lw := wr0; mu := false |} [Byte.x61] w0 = (Done (n, e, w'), s') /\
    mu w' = false /\
    Writer_Write wr0 [Byte.x61] w0 = (n, e, lw w', s').
Proof.
  split; [reflexivity|].
  exact (proj1 (LockedWriter_Write_unlocks {| lw := wr0; mu := false |} [Byte.x61] w0)
           eq_refl).
Defined.
